(** * COMET scoring command: a shallow embedding of [comet/cli/score.py]

    The command line entry point [score_command] parses its options,
    validates them, resolves the data set and the model, assembles one
    record per segment, calls the model's [predict] and prints and
    optionally serialises the scores.

    The embedding follows the Python source statement by statement.  Calls
    into other packages (jsonargparse's path type, sacrebleu, the COMET model
    library, the file system) are fields of a [World] record: each returns
    either a raised exception or its result.  Effects the script performs are
    recorded, in program order, in a trace of [event]s. *)

From Stdlib Require Import ZArith NArith Ascii String DecimalString.
From stdpp Require Import gmap strings list fin_maps.

Local Open Scope string_scope.

(** ** Text *)

(** Command line values, dictionary keys and messages are [string]s.  The
    lines of the input files are arbitrary Unicode text: a [text] is the list
    of the code points of a Python [str]. *)
Definition text := list N.

Definition text_of_string (s : string) : text :=
  map N_of_ascii (list_ascii_of_string s).

(** [str.isspace] on one code point (CPython's [_PyUnicode_IsWhitespace]). *)
Definition is_whitespace (c : N) : bool :=
  ((9 <=? c) && (c <=? 13) || (28 <=? c) && (c <=? 32)
   || (c =? 133) || (c =? 160) || (c =? 5760)
   || (8192 <=? c) && (c <=? 8202)
   || (c =? 8232) || (c =? 8233) || (c =? 8239) || (c =? 8287)
   || (c =? 12288))%N.

(** [s.lstrip()] *)
Fixpoint lstrip (s : text) : text :=
  match s with
  | c :: s' => if is_whitespace c then lstrip s' else s
  | [] => []
  end.

(** [s.rstrip()] *)
Definition rstrip (s : text) : text := rev (lstrip (rev s)).

(** [s.strip()]: leading and trailing whitespace removed. *)
Definition strip (s : text) : text := rstrip (lstrip s).

(** [needle in hay] on Python strings: [needle] occurs as a substring. *)
Fixpoint str_in (needle hay : string) : bool :=
  String.prefix needle hay
  || match hay with
     | EmptyString => false
     | String _ hay' => str_in needle hay'
     end.

(** The split of [s] at its last [":"], when it has one. *)
Fixpoint rsplit_last_colon (s : string) : option (string * string) :=
  match s with
  | EmptyString => None
  | String c rest =>
      match rsplit_last_colon rest with
      | Some (a, b) => Some (String c a, b)
      | None => if Ascii.eqb c ":" then Some (EmptyString, rest) else None
      end
  end.

(** [s.rsplit(":", maxsplit=1)] *)
Definition rsplit_colon (s : string) : list string :=
  match rsplit_last_colon s with
  | Some (a, b) => [a; b]
  | None => [s]
  end.

(** [s] has a [":"] somewhere. *)
Fixpoint has_colon (s : string) : bool :=
  match s with
  | EmptyString => false
  | String c rest => Ascii.eqb c ":" || has_colon rest
  end.

(** ["{}".format(i)] for a non-negative integer. *)
Definition format_nat (i : nat) : string :=
  NilEmpty.string_of_uint (Nat.to_uint i).

Definition tab : string := String (ascii_of_nat 9) EmptyString.

(** ** Configuration *)

(** A [Path_fr] value: the path of an existing readable file.  Calling it,
    [p()], gives the path as a string. *)
Record Path := mkPath { path_call : string }.

(** [--to_json], of type [Union[bool, str]]. *)
Inductive to_json_value :=
| TJBool (b : bool)
| TJStr (path : string).

(** [--mc_dropout], of type [Union[bool, int]]. *)
Inductive mc_dropout_value :=
| MCBool (b : bool)
| MCInt (n : Z).

(** The namespace [cfg] that [parser.parse_args()] returns. *)
Record Cfg := mkCfg {
  sources : option Path;
  translations : option Path;
  references : option Path;
  sacrebleu_dataset : option string;
  batch_size : Z;
  gpus : Z;
  to_json : to_json_value;
  model : string;
  model_storage_path : option string;
  mc_dropout : mc_dropout_value;
  seed_everything : Z;
  num_workers : Z;
  disable_cache : bool;
  disable_length_batching : bool
}.

(** One option as it appears on the command line, its value already
    converted to the option's declared type. *)
Inductive cli_arg :=
| ArgSources (p : Path)
| ArgTranslations (p : Path)
| ArgReferences (p : Path)
| ArgSacrebleuDataset (d : string)
| ArgBatchSize (n : Z)
| ArgGpus (n : Z)
| ArgToJson (v : to_json_value)
| ArgModel (m : string)
| ArgModelStoragePath (d : string)
| ArgMcDropout (v : mc_dropout_value)
| ArgSeedEverything (n : Z)
| ArgNumWorkers (n : Z)
| ArgDisableCache
| ArgDisableLengthBatching.

(** The defaults of the [add_argument] calls; [cpus] is
    [multiprocessing.cpu_count()]. *)
Definition default_cfg (cpus : Z) : Cfg :=
  {| sources := None;
     translations := None;
     references := None;
     sacrebleu_dataset := None;
     batch_size := 8;
     gpus := 1;
     to_json := TJBool false;
     model := "wmt20-comet-da";
     model_storage_path := None;
     mc_dropout := MCBool false;
     seed_everything := 12;
     num_workers := cpus;
     disable_cache := false;
     disable_length_batching := false |}.

(** The value of the last occurrence of an option on the command line. *)
Definition last_arg {A} (sel : cli_arg -> option A) (args : list cli_arg) : option A :=
  last (omap sel args).

Definition arg_sources a := match a with ArgSources p => Some p | _ => None end.
Definition arg_translations a := match a with ArgTranslations p => Some p | _ => None end.
Definition arg_references a := match a with ArgReferences p => Some p | _ => None end.
Definition arg_sacrebleu_dataset a := match a with ArgSacrebleuDataset d => Some d | _ => None end.
Definition arg_batch_size a := match a with ArgBatchSize n => Some n | _ => None end.
Definition arg_gpus a := match a with ArgGpus n => Some n | _ => None end.
Definition arg_to_json a := match a with ArgToJson v => Some v | _ => None end.
Definition arg_model a := match a with ArgModel m => Some m | _ => None end.
Definition arg_model_storage_path a := match a with ArgModelStoragePath d => Some d | _ => None end.
Definition arg_mc_dropout a := match a with ArgMcDropout v => Some v | _ => None end.
Definition arg_seed_everything a := match a with ArgSeedEverything n => Some n | _ => None end.
Definition arg_num_workers a := match a with ArgNumWorkers n => Some n | _ => None end.
Definition arg_disable_cache a := match a with ArgDisableCache => true | _ => false end.
Definition arg_disable_length_batching a :=
  match a with ArgDisableLengthBatching => true | _ => false end.

(** The namespace for a command line: every option takes the value of its
    last occurrence, or the default of its [add_argument] call. *)
Definition namespace_of (cpus : Z) (args : list cli_arg) : Cfg :=
  let d := default_cfg cpus in
  {| sources := last_arg arg_sources args;
     translations := last_arg arg_translations args;
     references := last_arg arg_references args;
     sacrebleu_dataset := last_arg arg_sacrebleu_dataset args;
     batch_size := default (batch_size d) (last_arg arg_batch_size args);
     gpus := default (gpus d) (last_arg arg_gpus args);
     to_json := default (to_json d) (last_arg arg_to_json args);
     model := default (model d) (last_arg arg_model args);
     model_storage_path := last_arg arg_model_storage_path args;
     mc_dropout := default (mc_dropout d) (last_arg arg_mc_dropout args);
     seed_everything := default (seed_everything d) (last_arg arg_seed_everything args);
     num_workers := default (num_workers d) (last_arg arg_num_workers args);
     disable_cache := existsb arg_disable_cache args;
     disable_length_batching := existsb arg_disable_length_batching args |}.

(** [cfg.sources = p] and [cfg.references = p] *)
Definition set_sources (p : Path) (cfg : Cfg) : Cfg :=
  mkCfg (Some p) (translations cfg) (references cfg) (sacrebleu_dataset cfg)
        (batch_size cfg) (gpus cfg) (to_json cfg) (model cfg) (model_storage_path cfg)
        (mc_dropout cfg) (seed_everything cfg) (num_workers cfg) (disable_cache cfg)
        (disable_length_batching cfg).

Definition set_references (p : Path) (cfg : Cfg) : Cfg :=
  mkCfg (sources cfg) (translations cfg) (Some p) (sacrebleu_dataset cfg)
        (batch_size cfg) (gpus cfg) (to_json cfg) (model cfg) (model_storage_path cfg)
        (mc_dropout cfg) (seed_everything cfg) (num_workers cfg) (disable_cache cfg)
        (disable_length_batching cfg).

(** ** Vocabulary for command lines and output lines *)

(** The namespace with another value for [--translations]. *)
Definition set_translations (o : option Path) (cfg : Cfg) : Cfg :=
  mkCfg (sources cfg) o (references cfg) (sacrebleu_dataset cfg)
        (batch_size cfg) (gpus cfg) (to_json cfg) (model cfg) (model_storage_path cfg)
        (mc_dropout cfg) (seed_everything cfg) (num_workers cfg) (disable_cache cfg)
        (disable_length_batching cfg).

(** An option does not occur on the command line. *)
Definition omitted {A} (sel : cli_arg -> option A) (args : list cli_arg) : Prop :=
  Forall (fun a => sel a = None) args.

(** A line of standard output is the aggregate line. *)
Definition is_system_line (l : string) : bool := String.prefix "System score: " l.

(** A line of standard output is the line of segment [i]. *)
Definition is_segment_line (i : nat) (l : string) : bool :=
  String.prefix ("Segment " ++ format_nat i ++ tab ++ "score: ") l.

(** ** Exceptions and ways to stop *)

(** The script tells three groups of exceptions apart, by its [except]
    clauses. *)
Inductive exn_kind :=
| KValueError      (* ValueError and its subclasses *)
| KException       (* any other subclass of Exception *)
| KBaseException.  (* outside Exception: SystemExit, KeyboardInterrupt *)

(** A raised exception: its group and [str(e)]. *)
Record exn := mkExn { exn_kind_of : exn_kind; exn_str : string }.

(** How a run stops before the end of [score_command]. *)
Inductive abort :=
| UsageError (msg : string)   (* parser.error(msg): usage message, exit *)
| SysExit (code : Z)          (* sys.exit(code) *)
| Uncaught (e : exn).         (* an exception nobody handles *)

(** [_REFLESS_MODELS] *)
Definition _REFLESS_MODELS : list string := ["comet-qe"].

(** [any([i in model for i in _REFLESS_MODELS])] *)
Definition any_refless (model : string) : bool :=
  existsb (fun i => str_in i model) _REFLESS_MODELS.

(** Truth value of [cfg.mc_dropout] in [if cfg.mc_dropout:]. *)
Definition mc_truthy (v : mc_dropout_value) : bool :=
  match v with
  | MCBool b => b
  | MCInt n => negb (n =? 0)%Z
  end.

(** [enumerate(l)] *)
Fixpoint enumerate_from {A} (k : nat) (l : list A) : list (nat * A) :=
  match l with
  | [] => []
  | x :: l' => (k, x) :: enumerate_from (S k) l'
  end.

Definition enumerate {A} (l : list A) : list (nat * A) := enumerate_from 0 l.

(** [zip] applied to the unpacked columns: the rows of the columns, as many
    as the shortest column has entries. *)
Fixpoint zip_star {A} (cols : list (list A)) : list (list A) :=
  match cols with
  | [] => []
  | [c] => map (fun x => [x]) c
  | c :: cols' => zip_with cons c (zip_star cols')
  end.

Section Scoring.

(** The type of the scores the model returns (Python floats). *)
Context {Score : Type}.

(** A field of a record: a line of text, or a score. *)
Inductive value :=
| VText (s : text)
| VScore (x : Score).

(** A per-segment record is a Python dict from field names to values. *)
Local Abbreviation record := (gmap string value).

(** [dict(pairs)]: later pairs overwrite earlier ones. *)
Definition dict (pairs : list (string * value)) : record :=
  foldl (fun m kv => <[kv.1 := kv.2]> m) ∅ pairs.

(** The list of [dict(zip(data, t))] for [t] in the [zip] of the unpacked
    [data.values()], for the dict [data] of columns, given as its items in
    insertion order. *)
Definition assemble (data : list (string * list text)) : list record :=
  map (fun t => dict (zip (map fst data) (map VText t))) (zip_star (map snd data)).

(** The arguments of one [model.predict] call. *)
Record predict_call := mkPredictCall {
  pc_model : string;          (* the checkpoint the model was loaded from *)
  pc_cache : bool;            (* set_embedding_cache() was called on it *)
  pc_samples : list record;
  pc_batch_size : Z;
  pc_gpus : Z;
  pc_mc_dropout : option mc_dropout_value;   (* None: not passed *)
  pc_num_workers : Z;
  pc_length_batching : bool
}.

(** What [model.predict] returns: a pair or a triple. *)
Inductive prediction :=
| Pred2 (scores : list Score) (sys_score : Score)
| Pred3 (mean_scores std_scores : list Score) (sys_score : Score).

(** What the script does to the outside, in program order.  A call is
    recorded when it is made, whether or not it then raises.
    [seed_everything], [model.eval()] and [model.set_embedding_cache()] only
    set state in their libraries and are taken not to raise; what the
    libraries print themselves is not part of the trace. *)
Inductive event :=
| EvSeed (seed : Z)
| EvGetSourceFile (testset langpair : string)
| EvGetReferenceFiles (testset langpair : string)
| EvDownloadModel (name : string) (dir : option string)
| EvLoadCheckpoint (path : string)
| EvModelEval
| EvSetEmbeddingCache
| EvOpenRead (path : string)
| EvPredict (c : predict_call)
| EvStdout (line : string)
| EvStderr (line : string)
| EvJsonDump (path : string) (data : list record).

(** The other packages and the machine, as far as the script uses them. *)
Record World := mkWorld {
  cpu_count : Z;                                  (* multiprocessing.cpu_count() *)
  available_metrics : list string;                (* the keys of comet.models.available_metrics *)
  invalid_choice : string -> string;              (* the parser's message for a --model outside of choices *)
  get_source_file : string -> string -> exn + string;
  get_reference_files : string -> string -> exn + list string;
  Path_fr : string -> exn + Path;
  download_model : string -> option string -> exn + string;
  load_from_checkpoint : string -> exn + unit;
  open_readlines : string -> exn + list text;     (* open(path), then fp.readlines() *)
  predict : predict_call -> exn + prediction;
  open_write : string -> exn + unit;              (* open(path, "w") *)
  format_4f : Score -> string                     (* "{:.4f}".format(x) *)
}.

(** ** The monad of the script: a trace of events, and a result or an abort *)

Definition M (A : Type) : Type := (list event * (abort + A))%type.

Definition ret {A} (x : A) : M A := ([], inr x).

Definition bind {A B} (m : M A) (k : A -> M B) : M B :=
  match m with
  | (t, inl a) => (t, inl a)
  | (t, inr x) => let '(t', r) := k x in ((t ++ t')%list, r)
  end.

Definition emit (e : event) : M unit := ([e], inr tt).

Definition stop {A} (a : abort) : M A := ([], inl a).

Definition raise {A} (k : exn_kind) (msg : string) : M A :=
  stop (Uncaught (mkExn k msg)).

(** The result of a call into another package. *)
Definition call {A} (r : exn + A) : M A :=
  match r with
  | inl e => stop (Uncaught e)
  | inr x => ret x
  end.

(** [try: body except ...: handler e] *)
Definition try_except {A} (body : M A) (handler : exn -> M A) : M A :=
  match body with
  | (t, inl (Uncaught e)) => let '(t', r) := handler e in ((t ++ t')%list, r)
  | _ => body
  end.

(** [if c: stmt] *)
Definition when (c : bool) (m : M unit) : M unit := if c then m else ret tt.

Local Notation "'let*' x ':=' m 'in' k" := (bind m (fun x => k))
  (at level 10, x name, m at level 100, k at level 200, only parsing).

(** ** The script *)

(** [parser.error(msg)] *)
Definition parser_error {A} (msg : string) : M A := stop (UsageError msg).

(** [parser.parse_args()]: a [--model] given on the command line and outside
    of [choices] is refused with the parser's own usage message (the default
    is not checked against [choices]). *)
Definition parse_args (w : World) (args : list cli_arg) : M Cfg :=
  match filter (fun m => existsb (String.eqb m) (available_metrics w) = false)
               (omap arg_model args) with
  | m :: _ => parser_error (invalid_choice w m)
  | [] => ret (namespace_of (cpu_count w) args)
  end.

(** [a, b = l] *)
Definition unpack2 (l : list string) : M (string * string) :=
  match l with
  | [a; b] => ret (a, b)
  | _ :: _ :: _ => raise KValueError "too many values to unpack (expected 2)"
  | _ => raise KValueError
           ("not enough values to unpack (expected 2, got " ++ format_nat (length l) ++ ")")
  end.

(** [l[0]] *)
Definition getitem0 {A} (l : list A) : M A :=
  match l with
  | x :: _ => ret x
  | [] => raise KException "list index out of range"
  end.

(** [p()] for [p] a [Path_fr] or [None]. *)
Definition call_path (p : option Path) : M string :=
  match p with
  | Some p => ret (path_call p)
  | None => raise KException "'NoneType' object is not callable"
  end.

(** Lines 117-126: the sources and references of a sacrebleu test set. *)
Definition resolve_sacrebleu (w : World) (cfg : Cfg) (d : string) : M Cfg :=
  try_except
    (let* tl := unpack2 (rsplit_colon d) in
     let '(testset, langpair) := tl in
     let* _ := emit (EvGetSourceFile testset langpair) in
     let* f := call (get_source_file w testset langpair) in
     let* p := call (Path_fr w f) in
     let cfg := set_sources p cfg in
     let* _ := emit (EvGetReferenceFiles testset langpair) in
     let* fs := call (get_reference_files w testset langpair) in
     let* f0 := getitem0 fs in
     let* p0 := call (Path_fr w f0) in
     ret (set_references p0 cfg))
    (fun e =>
       match exn_kind_of e with
       | KValueError =>
           parser_error "SacreBLEU testset format must be TESTSET:LANGPAIR, e.g., wmt20:de-en"
       | KException =>
           let* _ := emit (EvStderr ("SacreBLEU error: " ++ exn_str e)) in
           stop (SysExit 1)
       | KBaseException => stop (Uncaught e)
       end).

(** Lines 110-131: the validation of the options; gives [cfg] with the data
    set resolved. *)
Definition validate (w : World) (cfg : Cfg) : M Cfg :=
  let* _ :=
    when (bool_decide (sources cfg = None) && bool_decide (sacrebleu_dataset cfg = None))
      (parser_error "You must specify a source (-s) or a sacrebleu dataset (-d)") in
  let* cfg :=
    match sacrebleu_dataset cfg with
    | Some d =>
        let* _ :=
          when (negb (bool_decide (references cfg = None))
                || negb (bool_decide (sources cfg = None)))
            (parser_error
               "Cannot use sacrebleu datasets (-d) with manually-specified datasets (-s and -r)") in
        resolve_sacrebleu w cfg d
    | None => ret cfg
    end in
  let* _ :=
    when (bool_decide (references cfg = None) && negb (any_refless (model cfg)))
      (parser_error (model cfg ++ " requires -r/--references or -d/--sacrebleu_dataset.")) in
  ret cfg.

(** Lines 133-142: the model, downloaded when it is a known metric, loaded
    and prepared.  Gives the checkpoint path. *)
Definition load_model (w : World) (cfg : Cfg) : M string :=
  let* model_path :=
    (if existsb (String.eqb (model cfg)) (available_metrics w)
     then let* _ := emit (EvDownloadModel (model cfg) (model_storage_path cfg)) in
          call (download_model w (model cfg) (model_storage_path cfg))
     else ret (model cfg)) in
  let* _ := emit (EvLoadCheckpoint model_path) in
  let* _ := call (load_from_checkpoint w model_path) in
  let* _ := emit EvModelEval in
  let* _ := when (negb (disable_cache cfg)) (emit EvSetEmbeddingCache) in
  ret model_path.

(** [with open(p()) as fp: [line.strip() for line in fp.readlines()]] *)
Definition read_stripped (w : World) (p : option Path) : M (list text) :=
  let* path := call_path p in
  let* _ := emit (EvOpenRead path) in
  let* lines := call (open_readlines w path) in
  ret (map strip lines).

(** Lines 144-157: the input files read and the records assembled. *)
Definition read_data (w : World) (cfg : Cfg) : M (list record) :=
  let* srcs := read_stripped w (sources cfg) in
  let* mts := read_stripped w (translations cfg) in
  let* data :=
    (if str_in "comet-qe" (model cfg)
     then ret [("src", srcs); ("mt", mts)]
     else let* refs := read_stripped w (references cfg) in
          ret [("src", srcs); ("mt", mts); ("ref", refs)]) in
  ret (assemble data).

(** [sample[key] = v] for the sample that is [data[i]]: the records of
    [data] are distinct objects, and the loop variable [sample] is an alias of
    the [i]-th of them. *)
Definition set_field (i : nat) (key : string) (v : value) (data : list record)
  : list record :=
  alter (fun sample => <[key := v]> sample) i data.

(** ["Segment {}\tscore: {:.4f}".format(i, score)] *)
Definition segment_line (w : World) (i : nat) (score : Score) : string :=
  "Segment " ++ format_nat i ++ tab ++ "score: " ++ format_4f w score.

(** ["Segment {}\tscore: {:.4f}\tvariance: {:.4f}".format(i, mean, std)] *)
Definition segment_line_mc (w : World) (i : nat) (mean std : Score) : string :=
  "Segment " ++ format_nat i ++ tab ++ "score: " ++ format_4f w mean
  ++ tab ++ "variance: " ++ format_4f w std.

(** Lines 173-175: the loop over [enumerate(zip(predictions, data))]. *)
Fixpoint segment_loop (w : World) (items : list (nat * (Score * record)))
    (data : list record) : M (list record) :=
  match items with
  | [] => ret data
  | (i, (score, _)) :: items' =>
      let* _ := emit (EvStdout (segment_line w i score)) in
      segment_loop w items' (set_field i "COMET" (VScore score) data)
  end.

(** Lines 163-166: the loop over
    [enumerate(zip(mean_scores, std_scores, data))]. *)
Fixpoint segment_loop_mc (w : World) (items : list (nat * (Score * Score * record)))
    (data : list record) : M (list record) :=
  match items with
  | [] => ret data
  | (i, (mean, std, _)) :: items' =>
      let* _ := emit (EvStdout (segment_line_mc w i mean std)) in
      segment_loop_mc w items'
        (set_field i "variance" (VScore std) (set_field i "COMET" (VScore mean) data))
  end.

(** [zip(a, b, c)] *)
Definition zip3 {A B C} (a : list A) (b : list B) (c : list C) : list (A * B * C) :=
  zip (zip a b) c.

(** The arguments of [model.predict(data, cfg.batch_size, cfg.gpus, ...)];
    [mc] is the fourth positional argument, when there is one. *)
Definition predict_args (cfg : Cfg) (model_path : string) (data : list record)
    (mc : option mc_dropout_value) : predict_call :=
  {| pc_model := model_path;
     pc_cache := negb (disable_cache cfg);
     pc_samples := data;
     pc_batch_size := batch_size cfg;
     pc_gpus := gpus cfg;
     pc_mc_dropout := mc;
     pc_num_workers := num_workers cfg;
     pc_length_batching := disable_length_batching cfg |}.

(** Lines 158-175: the prediction and the per-segment output.  Gives the
    system score and the records with their scores. *)
Definition predict_and_report (w : World) (cfg : Cfg) (model_path : string)
    (data : list record) : M (Score * list record) :=
  if mc_truthy (mc_dropout cfg) then
    let c := predict_args cfg model_path data (Some (mc_dropout cfg)) in
    let* _ := emit (EvPredict c) in
    let* r := call (predict w c) in
    match r with
    | Pred3 mean_scores std_scores sys_score =>
        let* data := segment_loop_mc w (enumerate (zip3 mean_scores std_scores data)) data in
        ret (sys_score, data)
    | Pred2 _ _ => raise KValueError "not enough values to unpack (expected 3, got 2)"
    end
  else
    let c := predict_args cfg model_path data None in
    let* _ := emit (EvPredict c) in
    let* r := call (predict w c) in
    match r with
    | Pred2 predictions sys_score =>
        let* data := segment_loop w (enumerate (zip predictions data)) data in
        ret (sys_score, data)
    | Pred3 _ _ _ => raise KValueError "too many values to unpack (expected 2)"
    end.

(** ["System score: {:.4f}".format(sys_score)] *)
Definition system_line (w : World) (sys_score : Score) : string :=
  "System score: " ++ format_4f w sys_score.

(** ["Predictions saved in: {}.".format(path)] *)
Definition saved_line (path : string) : string :=
  "Predictions saved in: " ++ path ++ ".".

(** Lines 177-181: the system score, and the JSON file when [cfg.to_json] is
    a string. *)
Definition report_system (w : World) (cfg : Cfg) (sys_score : Score)
    (data : list record) : M unit :=
  let* _ := emit (EvStdout (system_line w sys_score)) in
  match to_json cfg with
  | TJStr path =>
      let* _ := call (open_write w path) in
      let* _ := emit (EvJsonDump path data) in
      emit (EvStdout (saved_line path))
  | TJBool _ => ret tt
  end.

(** Lines 158-181, after the data has been read. *)
Definition predict_and_save (w : World) (cfg : Cfg) (model_path : string)
    (data : list record) : M unit :=
  let* r := predict_and_report w cfg model_path data in
  report_system w cfg r.1 r.2.

(** Lines 108-181, for the namespace [cfg]. *)
Definition score_cfg (w : World) (cfg : Cfg) : M unit :=
  let* _ := emit (EvSeed (seed_everything cfg)) in
  let* cfg := validate w cfg in
  let* model_path := load_model w cfg in
  let* data := read_data w cfg in
  predict_and_save w cfg model_path data.

(** [score_command()] on the command line [args]. *)
Definition score_command (w : World) (args : list cli_arg) : M unit :=
  let* cfg := parse_args w args in
  score_cfg w cfg.

(** ** Reading a trace *)

(** The lines printed on standard output. *)
Definition stdout (tr : list event) : list string :=
  omap (fun e => match e with EvStdout l => Some l | _ => None end) tr.

(** The files opened for reading, in order. *)
Definition files_read (tr : list event) : list string :=
  omap (fun e => match e with EvOpenRead p => Some p | _ => None end) tr.

(** The JSON files written, with their contents. *)
Definition json_written (tr : list event) : list (string * list record) :=
  omap (fun e => match e with EvJsonDump p d => Some (p, d) | _ => None end) tr.

(** The [predict] calls made. *)
Definition predict_calls (tr : list event) : list predict_call :=
  omap (fun e => match e with EvPredict c => Some c | _ => None end) tr.

(** A model was downloaded or loaded. *)
Definition is_model_event (e : event) : bool :=
  match e with
  | EvDownloadModel _ _ | EvLoadCheckpoint _ => true
  | _ => false
  end.

(** Events of the sacrebleu look-up: the only ones validation produces. *)
Definition is_sacrebleu_event (e : event) : bool :=
  match e with
  | EvGetSourceFile _ _ | EvGetReferenceFiles _ _ | EvStderr _ => true
  | _ => false
  end.

(** Events of loading the model. *)
Definition is_load_event (e : event) : bool :=
  match e with
  | EvDownloadModel _ _ | EvLoadCheckpoint _ | EvModelEval | EvSetEmbeddingCache => true
  | _ => false
  end.

(** The prediction has one score (and one variance) for every sample:
    what the model library promises of [predict]. *)
Definition one_score_per_sample (c : predict_call) (p : prediction) : Prop :=
  match p with
  | Pred2 scores _ => length scores = length (pc_samples c)
  | Pred3 means stds _ =>
      length means = length (pc_samples c) /\ length stds = length (pc_samples c)
  end.

Definition predict_contract (w : World) : Prop :=
  forall c p, predict w c = inr p -> one_score_per_sample c p.

(** ** Vocabulary of the properties *)

(** The [predict] call the script makes for [cfg]: with [cfg.mc_dropout] as
    fourth argument exactly when it is true. *)
Definition the_call (cfg : Cfg) (model_path : string) (data : list record)
  : predict_call :=
  predict_args cfg model_path data
    (if mc_truthy (mc_dropout cfg) then Some (mc_dropout cfg) else None).

(** The prediction unpacks into the names of the branch taken: three with MC
    dropout, two without. *)
Definition shape_ok (cfg : Cfg) (p : prediction) : bool :=
  match p with
  | Pred2 _ _ => negb (mc_truthy (mc_dropout cfg))
  | Pred3 _ _ _ => mc_truthy (mc_dropout cfg)
  end.

Definition sys_score_of (p : prediction) : Score :=
  match p with
  | Pred2 _ sys_score | Pred3 _ _ sys_score => sys_score
  end.

(** The per-segment lines for a prediction over [n] samples: one for each of
    the first [n] scores, numbered from 0. *)
Definition segment_lines (w : World) (p : prediction) (n : nat) : list string :=
  match p with
  | Pred2 scores _ => imap (segment_line w) (take n scores)
  | Pred3 means stds _ =>
      imap (fun i ms => segment_line_mc w i ms.1 ms.2) (take n (zip means stds))
  end.

(** The [i]-th record after the loop: with its score, when the prediction has
    an [i]-th score. *)
Definition scored_record (p : prediction) (i : nat) (sample : record) : record :=
  match p with
  | Pred2 scores _ =>
      match scores !! i with
      | Some score => <["COMET" := VScore score]> sample
      | None => sample
      end
  | Pred3 means stds _ =>
      match zip means stds !! i with
      | Some (mean, std) => <["variance" := VScore std]> (<["COMET" := VScore mean]> sample)
      | None => sample
      end
  end.

(** What every event of a run has to do with the options: [predict] gets the
    batch size, GPU count and worker count of the command line, and a JSON
    file is only written to the path given as [--to_json]. *)
Definition event_follows_options (cfg : Cfg) (e : event) : Prop :=
  match e with
  | EvPredict c =>
      pc_batch_size c = batch_size cfg /\ pc_gpus c = gpus cfg
      /\ pc_num_workers c = num_workers cfg
  | EvJsonDump path _ => to_json cfg = TJStr path
  | _ => True
  end.

(** The stage of the script an event belongs to: seeding, the sacrebleu
    look-up, loading the model, reading the input, predicting, output. *)
Definition stage (e : event) : nat :=
  match e with
  | EvSeed _ => 0
  | EvGetSourceFile _ _ | EvGetReferenceFiles _ _ | EvStderr _ => 1
  | EvDownloadModel _ _ | EvLoadCheckpoint _ | EvModelEval | EvSetEmbeddingCache => 2
  | EvOpenRead _ => 3
  | EvPredict _ => 4
  | EvStdout _ | EvJsonDump _ _ => 5
  end.

(** The events of a trace come stage after stage. *)
Definition in_stage_order (tr : list event) : Prop :=
  forall i j e1 e2,
    i <= j -> tr !! i = Some e1 -> tr !! j = Some e2 -> stage e1 <= stage e2.

(** The number of samples a prediction has a score for. *)
Definition score_count (p : prediction) : nat :=
  match p with
  | Pred2 scores _ => length scores
  | Pred3 means stds _ => length means `min` length stds
  end.

(** A text has no whitespace at either end. *)
Definition trimmed (s : text) : Prop :=
  (forall c, head s = Some c -> is_whitespace c = false)
  /\ (forall c, last s = Some c -> is_whitespace c = false).

(** What validation may change in the namespace: the sources and the
    references. *)
Definition same_options (cfg cfg' : Cfg) : Prop :=
  translations cfg' = translations cfg
  /\ sacrebleu_dataset cfg' = sacrebleu_dataset cfg
  /\ batch_size cfg' = batch_size cfg
  /\ gpus cfg' = gpus cfg
  /\ to_json cfg' = to_json cfg
  /\ model cfg' = model cfg
  /\ model_storage_path cfg' = model_storage_path cfg
  /\ mc_dropout cfg' = mc_dropout cfg
  /\ seed_everything cfg' = seed_everything cfg
  /\ num_workers cfg' = num_workers cfg
  /\ disable_cache cfg' = disable_cache cfg
  /\ disable_length_batching cfg' = disable_length_batching cfg.

End Scoring.

(** Unfolding the operations of the monad, to compute with a run. *)
Ltac unfold_M :=
  unfold try_except, when, call, parser_error, raise, stop, emit, ret, bind in *.


Arguments World : clear implicits.
Arguments value : clear implicits.
Arguments event : clear implicits.
Arguments predict_call : clear implicits.
Arguments prediction : clear implicits.
Arguments M : clear implicits.

(** ** A small world to run the script in *)

Module Demo.

(** Scores are integers, printed in decimal. *)
Definition score := Z.

Definition show_Z (z : Z) : string :=
  if (z <? 0)%Z then "-" ++ format_nat (Z.to_nat (- z)) else format_nat (Z.to_nat z).

Definition src_lines : list text :=
  map text_of_string ["Hallo Welt. "; " Guten Morgen."; "Danke."].
Definition mt_lines : list text :=
  map text_of_string ["Hello world."; "Good morning."].
Definition ref_lines : list text :=
  map text_of_string ["Hello, world."; "Good morning!"; "Thanks."; "Bye."].

Definition files : list (string * list text) :=
  [("src.txt", src_lines); ("mt.txt", mt_lines); ("ref.txt", ref_lines);
   ("src2.txt", take 2 src_lines); ("ref2.txt", take 2 ref_lines)].

Definition lookup_file (path : string) : exn + list text :=
  match filter (fun f => String.eqb f.1 path) files with
  | f :: _ => inr f.2
  | [] => inl (mkExn KException ("No such file or directory: " ++ path))
  end.

(** The model gives the [i]-th sample the score [i + 1], and their sum as
    the system score. *)
Definition demo_predict (c : predict_call score) : exn + prediction score :=
  let scores := map (fun i => Z.of_nat (S i)) (seq 0 (length (pc_samples c))) in
  let sys := foldr Z.add 0%Z scores in
  match pc_mc_dropout c with
  | Some _ => inr (Pred3 scores (map (fun _ => 0%Z) scores) sys)
  | None => inr (Pred2 scores sys)
  end.

Definition world : World score :=
  {| cpu_count := 4;
     available_metrics := ["wmt20-comet-da"; "wmt20-comet-qe-da"];
     invalid_choice := fun m => "argument --model: invalid choice: " ++ m;
     get_source_file := fun t l => inr (t ++ "." ++ l ++ ".src");
     get_reference_files := fun t l => inr [t ++ "." ++ l ++ ".ref"];
     Path_fr := fun f => inr (mkPath f);
     download_model := fun m _ => inr ("/models/" ++ m ++ ".ckpt");
     load_from_checkpoint := fun _ => inr tt;
     open_readlines := lookup_file;
     predict := demo_predict;
     open_write := fun _ => inr tt;
     format_4f := show_Z |}.

(** Command lines to run. *)
Definition src := ArgSources (mkPath "src.txt").
Definition src2 := ArgSources (mkPath "src2.txt").
Definition mt := ArgTranslations (mkPath "mt.txt").
Definition ref := ArgReferences (mkPath "ref.txt").
Definition ref2 := ArgReferences (mkPath "ref2.txt").
Definition qe := ArgModel "wmt20-comet-qe-da".
Definition json := ArgToJson (TJStr "out.json").

(** The trace of loading the default model. *)
Definition load_trace : list (event score) :=
  [EvDownloadModel "wmt20-comet-da" None; EvLoadCheckpoint "/models/wmt20-comet-da.ckpt";
   EvModelEval; EvSetEmbeddingCache].

(** The records of [src.txt], [mt.txt] and [ref.txt]. *)
Definition records : list (gmap string (value score)) :=
  assemble [("src", map strip src_lines); ("mt", map strip mt_lines);
            ("ref", map strip ref_lines)].

(** Variants of the world, to see the script fail. *)
Definition with_predict (f : predict_call score -> exn + prediction score)
    (w : World score) : World score :=
  mkWorld (cpu_count w) (available_metrics w) (invalid_choice w) (get_source_file w)
          (get_reference_files w) (Path_fr w) (download_model w) (load_from_checkpoint w)
          (open_readlines w) f (open_write w) (format_4f w).

Definition with_sacrebleu (src : string -> string -> exn + string)
    (refs : string -> string -> exn + list string) (w : World score) : World score :=
  mkWorld (cpu_count w) (available_metrics w) (invalid_choice w) src refs
          (Path_fr w) (download_model w) (load_from_checkpoint w)
          (open_readlines w) (predict w) (open_write w) (format_4f w).

Definition with_open_write (f : string -> exn + unit) (w : World score) : World score :=
  mkWorld (cpu_count w) (available_metrics w) (invalid_choice w) (get_source_file w)
          (get_reference_files w) (Path_fr w) (download_model w) (load_from_checkpoint w)
          (open_readlines w) (predict w) f (format_4f w).

(** A model that scores the first sample only. *)
Definition short_world : World score :=
  with_predict (fun _ => inr (Pred2 [7%Z] 7%Z)) world.

(** A model that always returns means and variances. *)
Definition triple_world : World score :=
  with_predict (fun _ => inr (Pred3 [] [] 0%Z)) world.

(** A model whose [predict] raises. *)
Definition out_of_memory : exn := mkExn KException "CUDA out of memory".
Definition failing_world : World score :=
  with_predict (fun _ => inl out_of_memory) world.

(** sacrebleu does not know the test set. *)
Definition unknown_testset : exn := mkExn KException "No such test set".
Definition no_testset_world : World score :=
  with_sacrebleu (fun _ _ => inl unknown_testset) (get_reference_files world) world.

(** sacrebleu has no reference for the test set. *)
Definition no_reference_world : World score :=
  with_sacrebleu (get_source_file world) (fun _ _ => inr []) world.

(** sacrebleu's files are those of the small world. *)
Definition sacrebleu_world : World score :=
  with_sacrebleu (fun _ _ => inr "src.txt") (fun _ _ => inr ["ref.txt"; "ref2.txt"]) world.

(** Nothing can be written. *)
Definition read_only : exn := mkExn KException "Read-only file system".
Definition read_only_world : World score :=
  with_open_write (fun _ => inl read_only) world.

(** An empty sources file, beside the files of the small world. *)
Definition empty_world : World score :=
  mkWorld (cpu_count world) (available_metrics world) (invalid_choice world)
          (get_source_file world) (get_reference_files world) (Path_fr world)
          (download_model world) (load_from_checkpoint world)
          (fun path => if String.eqb path "empty.txt" then inr [] else lookup_file path)
          (predict world) (open_write world) (format_4f world).

End Demo.

(** ** Sanity checks of the definitions *)

Example str_in_qe : str_in "comet-qe" "wmt20-comet-qe-da" = true.
Proof. reflexivity. Qed.

Example str_in_da : str_in "comet-qe" "wmt20-comet-da" = false.
Proof. reflexivity. Qed.

Example rsplit_colon_two : rsplit_colon "wmt20:en-de" = ["wmt20"; "en-de"].
Proof. reflexivity. Qed.

Example rsplit_colon_last : rsplit_colon "a:b:c" = ["a:b"; "c"].
Proof. reflexivity. Qed.

Example rsplit_colon_none : rsplit_colon "wmt20" = ["wmt20"].
Proof. reflexivity. Qed.

Example strip_line :
  strip (text_of_string (" Hello world." ++ tab ++ " ")) = text_of_string "Hello world.".
Proof. reflexivity. Qed.

Example is_whitespace_examples :
  map is_whitespace [9; 13; 14; 27; 28; 32; 33; 65; 133; 160; 8192; 8202; 8203; 12288]%N
  = [true; true; false; false; true; true; false; false; true; true; true; true;
     false; true].
Proof. reflexivity. Qed.

Example strip_keeps_inner_space :
  strip (text_of_string "  a b  ") = text_of_string "a b".
Proof. reflexivity. Qed.

Example format_nat_10 : format_nat 10 = "10".
Proof. reflexivity. Qed.

Example format_nat_0 : format_nat 0 = "0".
Proof. reflexivity. Qed.

Example namespace_of_example :
  namespace_of 4 [ArgSources (mkPath "a"); ArgBatchSize 16; ArgSources (mkPath "b")]
  = set_sources (mkPath "b")
      (mkCfg None None None None 16 1 (TJBool false) "wmt20-comet-da" None
             (MCBool false) 12 4 false false).
Proof. reflexivity. Qed.

Example zip_star_example :
  zip_star [[1; 2; 3]; [4; 5]; [6; 7; 8]] = [[1; 4; 6]; [2; 5; 7]].
Proof. reflexivity. Qed.


Example demo_usage_error :
  score_command Demo.world []
  = ([EvSeed 12],
     inl (UsageError "You must specify a source (-s) or a sacrebleu dataset (-d)")).
Proof. reflexivity. Qed.

Example demo_stdout :
  stdout (score_command Demo.world
            [ArgSources (mkPath "src.txt"); ArgTranslations (mkPath "mt.txt");
             ArgReferences (mkPath "ref.txt"); ArgToJson (TJStr "out.json")]).1
  = ["Segment 0" ++ tab ++ "score: 1"; "Segment 1" ++ tab ++ "score: 2";
     "System score: 3"; "Predictions saved in: out.json."].
Proof. reflexivity. Qed.

Example demo_qe_reads :
  files_read (score_command Demo.world [Demo.src; Demo.mt; Demo.qe]).1
  = ["src.txt"; "mt.txt"].
Proof. reflexivity. Qed.

Example demo_mc_stdout :
  stdout (score_command Demo.world
            [Demo.src; Demo.mt; Demo.ref; ArgMcDropout (MCInt 5)]).1
  = ["Segment 0" ++ tab ++ "score: 1" ++ tab ++ "variance: 0";
     "Segment 1" ++ tab ++ "score: 2" ++ tab ++ "variance: 0";
     "System score: 3"].
Proof. reflexivity. Qed.

Example demo_sacrebleu_missing_file :
  (score_command Demo.world [ArgSacrebleuDataset "wmt20:en-de"; Demo.mt]).2
  = inl (Uncaught (mkExn KException "No such file or directory: wmt20.en-de.src")).
Proof. reflexivity. Qed.

(** ** Properties *)

Section Properties.

Context {Score : Type}.

Local Abbreviation record := (gmap string (value Score)).
Local Abbreviation M := (M Score).
Local Abbreviation World := (World Score).
Local Abbreviation event := (event Score).

Implicit Types (w : World) (cfg : Cfg) (tr : list event) (e : event).

(** *** The monad *)

Lemma bind_ret_l {A B} (x : A) (k : A -> M B) : bind (ret x) k = k x.
Proof. unfold bind, ret. by destruct (k x). Qed.

Lemma bind_ok {A B} (m : M A) (k : A -> M B) t x :
  m = (t, inr x) -> bind m k = ((t ++ (k x).1)%list, (k x).2).
Proof. intros ->. unfold bind. by destruct (k x). Qed.

Lemma bind_abort {A B} (m : M A) (k : A -> M B) t a :
  m = (t, inl a) -> bind m k = (t, inl a).
Proof. by intros ->. Qed.

Lemma bind_inv {A B} (m : M A) (k : A -> M B) tr r :
  bind m k = (tr, r) ->
  (exists a, m = (tr, inl a) /\ r = inl a)
  \/ (exists t x t', m = (t, inr x) /\ k x = (t', r) /\ tr = (t ++ t')%list).
Proof.
  unfold bind. destruct m as [t [a|x]].
  - intros [= <- <-]. left. eauto.
  - destruct (k x) as [t' r'] eqn:Hk. intros [= <- <-]. right. eauto 10.
Qed.

(** *** Projections of a trace *)

Lemma stdout_app tr tr' : stdout (tr ++ tr') = (stdout tr ++ stdout tr')%list.
Proof. apply omap_app. Qed.

Lemma files_read_app tr tr' :
  files_read (tr ++ tr') = (files_read tr ++ files_read tr')%list.
Proof. apply omap_app. Qed.

Lemma json_written_app tr tr' :
  json_written (tr ++ tr') = (json_written tr ++ json_written tr')%list.
Proof. apply omap_app. Qed.

Lemma predict_calls_app tr tr' :
  predict_calls (tr ++ tr') = (predict_calls tr ++ predict_calls tr')%list.
Proof. apply omap_app. Qed.

Lemma sacrebleu_events_quiet tr :
  forallb is_sacrebleu_event tr = true ->
  stdout tr = [] /\ files_read tr = [] /\ json_written tr = []
  /\ predict_calls tr = [] /\ existsb is_model_event tr = false.
Proof.
  induction tr as [|e tr IH]; [done|].
  simpl. intros [He Htr]%andb_prop. destruct (IH Htr) as (?&?&?&?&?).
  unfold stdout, files_read, json_written, predict_calls in *.
  destruct e; try discriminate He; simpl; by repeat split.
Qed.

(** *** Validation *)

Lemma resolve_sacrebleu_trace w cfg d t r :
  resolve_sacrebleu w cfg d = (t, r) -> forallb is_sacrebleu_event t = true.
Proof.
  unfold resolve_sacrebleu, unpack2, getitem0. unfold_M.
  intros H. by repeat (case_match; simplify_eq/=).
Qed.

Lemma rsplit_last_colon_None d : has_colon d = false -> rsplit_last_colon d = None.
Proof.
  induction d as [|c d IH]; [done|].
  simpl. intros [Hc Hd]%orb_false_elim. by rewrite (IH Hd), Hc.
Qed.

Lemma rsplit_colon_no_colon d : has_colon d = false -> rsplit_colon d = [d].
Proof. intros H. unfold rsplit_colon. by rewrite rsplit_last_colon_None. Qed.

Lemma same_options_refl cfg : same_options cfg cfg.
Proof. by repeat split. Qed.

Lemma resolve_sacrebleu_ok w cfg d t cfg' :
  resolve_sacrebleu w cfg d = (t, inr cfg') ->
  same_options cfg cfg' /\ is_Some (sources cfg') /\ is_Some (references cfg').
Proof.
  unfold resolve_sacrebleu, unpack2, getitem0. unfold_M.
  intros H. repeat (case_match; simplify_eq/=).
  split; [by repeat split | by split].
Qed.

Lemma resolve_sacrebleu_no_colon w cfg d :
  has_colon d = false ->
  resolve_sacrebleu w cfg d
  = ([], inl (UsageError
                "SacreBLEU testset format must be TESTSET:LANGPAIR, e.g., wmt20:de-en")).
Proof.
  intros H. unfold resolve_sacrebleu. by rewrite (rsplit_colon_no_colon _ H).
Qed.

Lemma validate_trace w cfg t r :
  validate w cfg = (t, r) -> forallb is_sacrebleu_event t = true.
Proof.
  unfold validate. intros H.
  destruct (sacrebleu_dataset cfg) as [d|] eqn:Hd.
  - destruct (resolve_sacrebleu w cfg d) as [t' r'] eqn:Hr.
    pose proof (resolve_sacrebleu_trace _ _ _ _ _ Hr) as Ht'.
    unfold_M. repeat (case_match; simplify_eq/=); rewrite ?app_nil_r; done.
  - unfold_M. by repeat (case_match; simplify_eq/=).
Qed.

Lemma validate_ok w cfg t cfg' :
  validate w cfg = (t, inr cfg') ->
  same_options cfg cfg'
  /\ is_Some (sources cfg')
  /\ (references cfg' = None -> any_refless (model cfg') = true)
  /\ (sacrebleu_dataset cfg = None -> cfg' = cfg /\ t = []).
Proof.
  unfold validate. intros H.
  destruct (sacrebleu_dataset cfg) as [d|] eqn:Hd.
  - destruct (resolve_sacrebleu w cfg d) as [t' [a|c]] eqn:Hr.
    { unfold_M. repeat (case_match; simplify_eq/=). }
    destruct (resolve_sacrebleu_ok _ _ _ _ _ Hr) as (Hsame & Hs & Hrf).
    unfold_M. repeat (case_match; simplify_eq/=).
    split_and!; try done.
    intros Hn. rewrite Hn in Hrf. by apply is_Some_None in Hrf.
  - assert (Hsrc : forall c, bool_decide (sources c = None) && true = false ->
                             is_Some (sources c)).
    { intros c. destruct (sources c); [done|]. by rewrite bool_decide_eq_true_2. }
    unfold_M. repeat (case_match; simplify_eq/=).
    split_and!; try done; [by apply Hsrc |].
    intros Hn. rewrite Hn, bool_decide_eq_true_2 in * by done.
    by destruct (any_refless (model cfg')).
Qed.

(** Whatever sacrebleu or the path type raise while the data set is looked
    up is caught, as long as it is an [Exception]: validation never lets one
    of those through. *)
Lemma validate_uncaught w cfg t ex :
  validate w cfg = (t, inl (Uncaught ex)) -> exn_kind_of ex = KBaseException.
Proof.
  unfold validate, resolve_sacrebleu, unpack2, getitem0. unfold_M.
  intros H. destruct ex as [k msg]. simpl.
  repeat (case_match; simplify_eq/=); done.
Qed.

(** *** The whole command, from its parts *)

Lemma score_command_parsed w args cfg :
  parse_args w args = ret cfg -> score_command w args = score_cfg w cfg.
Proof. intros H. unfold score_command. rewrite H. apply bind_ret_l. Qed.

Lemma score_cfg_validate_abort w cfg t a :
  validate w cfg = (t, inl a) ->
  score_cfg w cfg = (EvSeed (seed_everything cfg) :: t, inl a).
Proof. intros H. unfold score_cfg. unfold_M. by rewrite H. Qed.

(** *** Argument validation *)

(** C3: when [--sacrebleu_dataset] comes together with [--sources] or
    [--references], the command stops with the usage error that says the two
    ways of naming a data set exclude each other; nothing but the seeding has
    happened by then. *)
Theorem sacrebleu_excludes_manual_dataset w args cfg d :
  parse_args w args = ret cfg ->
  sacrebleu_dataset cfg = Some d ->
  sources cfg <> None \/ references cfg <> None ->
  score_command w args
  = ([EvSeed (seed_everything cfg)],
     inl (UsageError
            "Cannot use sacrebleu datasets (-d) with manually-specified datasets (-s and -r)")).
Proof.
  intros Hp Hd Hsr. rewrite (score_command_parsed _ _ _ Hp).
  apply score_cfg_validate_abort.
  unfold validate. rewrite Hd. unfold_M.
  rewrite andb_false_r. simpl.
  destruct Hsr as [Hs | Hr].
  - rewrite (bool_decide_eq_false_2 _ Hs), orb_true_r. done.
  - rewrite (bool_decide_eq_false_2 _ Hr). done.
Qed.

(** C4: a [--sacrebleu_dataset] value without a [":"] cannot be split into
    TESTSET:LANGPAIR; the command then stops with a usage error (the one
    about the format when the value came alone), never with an uncaught
    exception, and before sacrebleu is asked for anything. *)
Theorem malformed_sacrebleu_dataset_reported w args cfg d :
  parse_args w args = ret cfg ->
  sacrebleu_dataset cfg = Some d ->
  has_colon d = false ->
  exists msg,
    score_command w args = ([EvSeed (seed_everything cfg)], inl (UsageError msg))
    /\ (sources cfg = None -> references cfg = None ->
        msg = "SacreBLEU testset format must be TESTSET:LANGPAIR, e.g., wmt20:de-en").
Proof.
  intros Hp Hd Hc. rewrite (score_command_parsed _ _ _ Hp).
  destruct (decide (sources cfg = None /\ references cfg = None)) as [[Hs Hr] | Hn].
  - eexists. split; [|done].
    apply score_cfg_validate_abort.
    unfold validate. rewrite Hd, Hs, Hr, (resolve_sacrebleu_no_colon _ _ _ Hc).
    by unfold_M.
  - eexists. split.
    + apply score_cfg_validate_abort.
      unfold validate. rewrite Hd. unfold_M. rewrite andb_false_r. simpl.
      destruct (references cfg), (sources cfg); simpl; try done.
      by destruct Hn.
    + intros Hs Hr. by destruct Hn.
Qed.

(** C2, as amended: with [--sources] given, without [--references] and
    [--sacrebleu_dataset], and for a model whose name does not contain
    "comet-qe", the command stops with the usage error that names the model;
    no model has been downloaded or loaded by then. *)
Theorem missing_references_rejected w args cfg :
  parse_args w args = ret cfg ->
  sources cfg <> None ->
  references cfg = None ->
  sacrebleu_dataset cfg = None ->
  str_in "comet-qe" (model cfg) = false ->
  exists tr,
    score_command w args
    = (tr, inl (UsageError
                  (model cfg ++ " requires -r/--references or -d/--sacrebleu_dataset.")))
    /\ existsb is_model_event tr = false.
Proof.
  intros Hp Hs Hr Hd Hq. rewrite (score_command_parsed _ _ _ Hp).
  exists [EvSeed (seed_everything cfg)]. split; [|done].
  apply score_cfg_validate_abort.
  unfold validate. rewrite Hd. unfold_M.
  rewrite (bool_decide_eq_false_2 _ Hs). simpl.
  rewrite Hr. unfold any_refless. simpl. rewrite Hq. done.
Qed.

(** *** Assembling the records *)

Lemma dict_src_mt (x y : text) :
  dict [("src", VText x); ("mt", VText y)]
  = ({[ "src" := VText x; "mt" := VText y ]} : record).
Proof. unfold dict. simpl. by apply insert_insert_ne. Qed.

Lemma dict_src_mt_ref (x y z : text) :
  dict [("src", VText x); ("mt", VText y); ("ref", VText z)]
  = ({[ "src" := VText x; "mt" := VText y; "ref" := VText z ]} : record).
Proof.
  unfold dict. simpl. apply map_eq. intros k.
  rewrite !lookup_insert, lookup_singleton, lookup_empty.
  repeat case_decide; simplify_eq; done.
Qed.

Lemma assemble_src_mt_lookup (S T : list text) i :
  assemble [("src", S); ("mt", T)] !! i
  = (x ← S !! i; y ← T !! i;
     Some ({[ "src" := VText x; "mt" := VText y ]} : record)).
Proof.
  unfold assemble. simpl. rewrite list_lookup_fmap, lookup_zip_with.
  rewrite list_lookup_fmap.
  destruct (S !! i) as [x|]; [|done]. destruct (T !! i) as [y|]; [|done].
  simpl. by rewrite dict_src_mt.
Qed.

Lemma assemble_src_mt_length (S T : list text) :
  length (assemble [("src", S); ("mt", T)] : list record) = length S `min` length T.
Proof.
  unfold assemble. simpl. by rewrite length_fmap, length_zip_with, length_fmap.
Qed.

Lemma assemble_src_mt_ref_lookup (S T R : list text) i :
  assemble [("src", S); ("mt", T); ("ref", R)] !! i
  = (x ← S !! i; y ← T !! i; z ← R !! i;
     Some ({[ "src" := VText x; "mt" := VText y; "ref" := VText z ]} : record)).
Proof.
  unfold assemble. simpl. rewrite list_lookup_fmap, !lookup_zip_with.
  rewrite list_lookup_fmap.
  destruct (S !! i) as [x|]; [|done]. destruct (T !! i) as [y|]; [|done].
  destruct (R !! i) as [z|]; [|done].
  simpl. by rewrite dict_src_mt_ref.
Qed.

Lemma assemble_src_mt_ref_length (S T R : list text) :
  length (assemble [("src", S); ("mt", T); ("ref", R)] : list record)
  = length S `min` (length T `min` length R).
Proof.
  unfold assemble. simpl.
  by rewrite length_fmap, !length_zip_with, length_fmap.
Qed.

(** *** Reading the input files *)

Lemma read_stripped_ok w p lines :
  open_readlines w (path_call p) = inr lines ->
  read_stripped w (Some p) = ([EvOpenRead (path_call p)], inr (strip <$> lines)).
Proof. intros H. unfold read_stripped, call_path. unfold_M. by rewrite H. Qed.

Lemma read_data_qe w cfg s t S T :
  str_in "comet-qe" (model cfg) = true ->
  sources cfg = Some s -> translations cfg = Some t ->
  open_readlines w (path_call s) = inr S ->
  open_readlines w (path_call t) = inr T ->
  read_data w cfg
  = ([EvOpenRead (path_call s); EvOpenRead (path_call t)],
     inr (assemble [("src", strip <$> S); ("mt", strip <$> T)])).
Proof.
  intros Hq Hs Ht HS HT. unfold read_data.
  rewrite Hq, Hs, Ht, (read_stripped_ok _ _ _ HS), (read_stripped_ok _ _ _ HT).
  by unfold_M.
Qed.

Lemma read_data_ref w cfg s t r S T R :
  str_in "comet-qe" (model cfg) = false ->
  sources cfg = Some s -> translations cfg = Some t -> references cfg = Some r ->
  open_readlines w (path_call s) = inr S ->
  open_readlines w (path_call t) = inr T ->
  open_readlines w (path_call r) = inr R ->
  read_data w cfg
  = ([EvOpenRead (path_call s); EvOpenRead (path_call t); EvOpenRead (path_call r)],
     inr (assemble [("src", strip <$> S); ("mt", strip <$> T); ("ref", strip <$> R)])).
Proof.
  intros Hq Hs Ht Hr HS HT HR. unfold read_data.
  rewrite Hq, Hs, Ht, Hr, (read_stripped_ok _ _ _ HS), (read_stripped_ok _ _ _ HT),
    (read_stripped_ok _ _ _ HR).
  by unfold_M.
Qed.

(** *** The loops over the scores *)

Lemma enumerate_from_lookup {A} k (xs : list A) i :
  enumerate_from k xs !! i = (fun x => (k + i, x)) <$> xs !! i.
Proof.
  revert k i. induction xs as [|x xs IH]; intros k i; [done|].
  destruct i as [|i]; simpl.
  - by rewrite Nat.add_0_r.
  - rewrite IH. by rewrite Nat.add_succ_r.
Qed.

Lemma fmap_enumerate_from {A B} (g : nat -> A -> B) k (xs : list A) :
  (fun it => g it.1 it.2) <$> enumerate_from k xs = imap (fun i x => g (k + i) x) xs.
Proof.
  apply list_eq. intros i.
  rewrite list_lookup_fmap, enumerate_from_lookup, list_lookup_imap.
  by destruct (xs !! i).
Qed.

Lemma fst_zip_take {A B} (l : list A) (k : list B) :
  (zip l k).*1 = take (length k) l.
Proof.
  revert k. induction l as [|x l IH]; intros [|y k]; simpl; try done.
  by rewrite IH.
Qed.

(** The loops alter the [i]-th record once for the [i]-th item, and leave the
    records beyond the items alone. *)
Lemma foldl_alter_enumerate {X} (upd : X -> record -> record) k (xs : list X)
    (data : list record) i :
  foldl (fun d it => alter (upd it.2) it.1 d) data (enumerate_from k xs) !! i
  = match xs !! (i - k) with
    | Some x => if decide (k <= i) then upd x <$> data !! i else data !! i
    | None => data !! i
    end.
Proof.
  revert k data. induction xs as [|x xs IH]; intros k data; simpl.
  { by destruct (i - k). }
  rewrite IH. destruct (decide (i = k)) as [->|Hne].
  - rewrite Nat.sub_diag. simpl.
    rewrite list_lookup_alter_eq.
    replace (k - S k) with 0 by lia.
    rewrite decide_True by lia.
    destruct xs as [|x' xs]; simpl; [done|].
    by rewrite decide_False by lia.
  - rewrite list_lookup_alter_ne by done.
    destruct (decide (k <= i)) as [Hle|Hgt].
    + replace (i - k) with (S (i - S k)) by lia. simpl.
      destruct (xs !! (i - S k)); [|done].
      by rewrite decide_True by lia.
    + replace (i - k) with 0 by lia. replace (i - S k) with 0 by lia.
      destruct xs as [|x' xs]; simpl; [done|].
      by rewrite decide_False by lia.
Qed.

Lemma foldl_alter_enumerate_length {X} (upd : X -> record -> record) k (xs : list X)
    (data : list record) :
  length (foldl (fun d it => alter (upd it.2) it.1 d) data (enumerate_from k xs))
  = length data.
Proof.
  revert k data. induction xs as [|x xs IH]; intros k data; simpl; [done|].
  by rewrite IH, length_alter.
Qed.

Lemma segment_loop_run w items data :
  segment_loop w items data
  = (EvStdout <$> ((fun it => segment_line w it.1 it.2.1) <$> items),
     inr (foldl (fun d it =>
                   alter (fun sample => <["COMET" := VScore it.2.1]> sample) it.1 d)
                data items)).
Proof.
  revert data. induction items as [|[i [sc smp]] items IH]; intros data; simpl; [done|].
  rewrite IH. by unfold_M.
Qed.

Lemma segment_loop_mc_run w items data :
  segment_loop_mc w items data
  = (EvStdout <$> ((fun it => segment_line_mc w it.1 it.2.1.1 it.2.1.2) <$> items),
     inr (foldl (fun d it =>
                   alter (fun sample =>
                            <["variance" := VScore it.2.1.2]>
                              (<["COMET" := VScore it.2.1.1]> sample)) it.1 d)
                data items)).
Proof.
  revert data. induction items as [|[i [[mean std] smp]] items IH]; intros data; simpl;
    [done|].
  rewrite IH. unfold_M. unfold set_field. by rewrite list_alter_alter_eq.
Qed.

(** *** The prediction and the report *)

Lemma predict_and_report_ok w cfg mp data p :
  predict w (the_call cfg mp data) = inr p ->
  shape_ok cfg p = true ->
  exists out,
    predict_and_report w cfg mp data
    = (EvPredict (the_call cfg mp data) :: (EvStdout <$> segment_lines w p (length data)),
       inr (sys_score_of p, out))
    /\ length out = length data
    /\ forall i, out !! i = scored_record p i <$> data !! i.
Proof.
  unfold predict_and_report, the_call, shape_ok.
  destruct (mc_truthy (mc_dropout cfg)) eqn:Hmc; intros Hp Hs; rewrite Hp;
    destruct p as [scores sys | means stds sys]; try discriminate Hs; simpl.
  - rewrite segment_loop_mc_run. unfold_M. simpl. eexists. split; [|split].
    + do 3 f_equal. unfold enumerate, zip3.
      rewrite (fmap_enumerate_from (fun i x => segment_line_mc w i x.1.1 x.1.2)).
      simpl. rewrite <- fst_zip_take.
      by rewrite app_nil_r, imap_fmap.
    + unfold enumerate.
      apply (foldl_alter_enumerate_length
               (fun x sample => <["variance" := VScore x.1.2]>
                                   (<["COMET" := VScore x.1.1]> sample))).
    + intros i. unfold enumerate.
      rewrite (foldl_alter_enumerate
                 (fun x sample => <["variance" := VScore x.1.2]>
                                     (<["COMET" := VScore x.1.1]> sample))).
      rewrite Nat.sub_0_r. unfold zip3, scored_record. rewrite lookup_zip_with.
      destruct (zip means stds !! i) as [[m sd]|]; simpl; by destruct (data !! i).
  - rewrite segment_loop_run. unfold_M. simpl. eexists. split; [|split].
    + do 3 f_equal. unfold enumerate.
      rewrite (fmap_enumerate_from (fun i x => segment_line w i x.1)).
      simpl. rewrite <- fst_zip_take.
      by rewrite app_nil_r, imap_fmap.
    + unfold enumerate.
      apply (foldl_alter_enumerate_length
               (fun x sample => <["COMET" := VScore x.1]> sample)).
    + intros i. unfold enumerate.
      rewrite (foldl_alter_enumerate (fun x sample => <["COMET" := VScore x.1]> sample)).
      rewrite Nat.sub_0_r, lookup_zip_with. unfold scored_record.
      destruct (scores !! i) as [sc|]; simpl; by destruct (data !! i).
Qed.

Lemma predict_and_report_inv w cfg mp data t r :
  predict_and_report w cfg mp data = (t, inr r) ->
  exists p, predict w (the_call cfg mp data) = inr p /\ shape_ok cfg p = true.
Proof.
  unfold predict_and_report, the_call, shape_ok.
  destruct (mc_truthy (mc_dropout cfg)); unfold_M;
    (destruct (predict w _) as [e|[scores sys|means stds sys]]; [done|..]);
    try done; eauto.
Qed.

Lemma predict_and_report_trace w cfg mp data t r :
  predict_and_report w cfg mp data = (t, r) ->
  exists lines, t = EvPredict (the_call cfg mp data) :: (EvStdout <$> lines).
Proof.
  unfold predict_and_report, the_call.
  destruct (mc_truthy (mc_dropout cfg)); unfold_M;
    (destruct (predict w _) as [e|[scores sys|means stds sys]]);
    rewrite ?segment_loop_run, ?segment_loop_mc_run; simpl;
    intros [= <- <-]; rewrite ?app_nil_r; try (by exists []); eauto.
Qed.

Lemma report_system_inv w cfg sys out t :
  report_system w cfg sys out = (t, inr tt) ->
  t = EvStdout (system_line w sys)
      :: match to_json cfg with
         | TJStr path => [EvJsonDump path out; EvStdout (saved_line path)]
         | TJBool _ => []
         end.
Proof.
  unfold report_system. unfold_M.
  destruct (to_json cfg) as [b|path]; [by intros [= <-]|].
  destruct (open_write w path) as [e|[]]; [done|]. by intros [= <-].
Qed.

Lemma report_system_ok w cfg sys out :
  (forall path, to_json cfg = TJStr path -> open_write w path = inr tt) ->
  report_system w cfg sys out
  = (EvStdout (system_line w sys)
       :: match to_json cfg with
          | TJStr path => [EvJsonDump path out; EvStdout (saved_line path)]
          | TJBool _ => []
          end, inr tt).
Proof.
  intros H. unfold report_system. unfold_M.
  destruct (to_json cfg) as [b|path]; [done|]. by rewrite (H path eq_refl).
Qed.

Lemma report_system_events w cfg sys out t r :
  report_system w cfg sys out = (t, r) ->
  Forall (event_follows_options cfg) t /\ files_read t = [] /\ predict_calls t = [].
Proof.
  unfold report_system. unfold_M.
  destruct (to_json cfg) as [b|path] eqn:Hj; [intros [= <- <-]|].
  { split; [|done]. by repeat constructor. }
  destruct (open_write w path) as [e|[]]; intros [= <- <-];
    (split; [|done]); by repeat constructor.
Qed.

Lemma load_events_quiet tr :
  forallb is_load_event tr = true ->
  stdout tr = [] /\ files_read tr = [] /\ json_written tr = []
  /\ predict_calls tr = [].
Proof.
  induction tr as [|e tr IH]; [done|].
  simpl. intros [He Htr]%andb_prop. destruct (IH Htr) as (?&?&?&?).
  unfold stdout, files_read, json_written, predict_calls in *.
  destruct e; try discriminate He; simpl; by repeat split.
Qed.

Lemma load_model_trace w cfg t r :
  load_model w cfg = (t, r) -> forallb is_load_event t = true.
Proof.
  unfold load_model. unfold_M. intros H.
  by repeat (case_match; simplify_eq/=).
Qed.

Lemma read_stripped_trace w p t r :
  read_stripped w p = (t, r) ->
  stdout t = [] /\ json_written t = [] /\ predict_calls t = []
  /\ forall cfg, Forall (event_follows_options cfg) t.
Proof.
  unfold read_stripped, call_path. unfold_M. intros H.
  repeat (case_match; simplify_eq/=); split_and!; try done;
    intros; by repeat constructor.
Qed.

Lemma read_data_trace w cfg t r :
  read_data w cfg = (t, r) ->
  stdout t = [] /\ json_written t = [] /\ predict_calls t = []
  /\ forall cfg, Forall (event_follows_options cfg) t.
Proof.
  unfold read_data. intros H.
  destruct (read_stripped w (sources cfg)) as [t1 r1] eqn:H1.
  destruct (read_stripped w (translations cfg)) as [t2 r2] eqn:H2.
  destruct (read_stripped w (references cfg)) as [t3 r3] eqn:H3.
  apply read_stripped_trace in H1 as (?&?&?&?), H2 as (?&?&?&?), H3 as (?&?&?&?).
  unfold_M.
  repeat (case_match; simplify_eq/=);
    rewrite ?stdout_app, ?json_written_app, ?predict_calls_app, ?app_nil_r;
    split_and!; try done; try (by repeat match goal with H : _ = [] |- _ => rewrite H end);
    intros; rewrite ?Forall_app; split_and?; auto.
Qed.

(** *** The stages of a run *)

Lemma score_cfg_after_read w cfg0 tv cfg tl mp td data :
  validate w cfg0 = (tv, inr cfg) ->
  load_model w cfg = (tl, inr mp) ->
  read_data w cfg = (td, inr data) ->
  score_cfg w cfg0
  = ((EvSeed (seed_everything cfg0)
        :: tv ++ tl ++ td ++ (predict_and_save w cfg mp data).1)%list,
     (predict_and_save w cfg mp data).2).
Proof.
  intros Hv Hl Hd. unfold score_cfg.
  rewrite (bind_ok _ _ [EvSeed (seed_everything cfg0)] tt) by done.
  rewrite (bind_ok _ _ _ _ Hv). simpl.
  rewrite (bind_ok _ _ _ _ Hl). simpl.
  rewrite (bind_ok _ _ _ _ Hd). simpl.
  done.
Qed.

Lemma score_cfg_stages w cfg0 tr r :
  score_cfg w cfg0 = (tr, r) ->
  exists tv rv, validate w cfg0 = (tv, rv) /\
  match rv with
  | inl a => tr = EvSeed (seed_everything cfg0) :: tv /\ r = inl a
  | inr cfg =>
    exists tl rl, load_model w cfg = (tl, rl) /\
    match rl with
    | inl a => tr = (EvSeed (seed_everything cfg0) :: tv ++ tl)%list /\ r = inl a
    | inr mp =>
      exists td rd, read_data w cfg = (td, rd) /\
      match rd with
      | inl a => tr = (EvSeed (seed_everything cfg0) :: tv ++ tl ++ td)%list /\ r = inl a
      | inr data =>
        exists tp, predict_and_save w cfg mp data = (tp, r)
                   /\ tr = (EvSeed (seed_everything cfg0) :: tv ++ tl ++ td ++ tp)%list
      end
    end
  end.
Proof.
  intros H.
  destruct (validate w cfg0) as [tv [a|cfg]] eqn:Hv; exists tv; eexists; (split; [done|]).
  { rewrite (score_cfg_validate_abort _ _ _ _ Hv) in H. by simplify_eq. }
  destruct (load_model w cfg) as [tl [a|mp]] eqn:Hl; exists tl; eexists; (split; [done|]).
  { unfold score_cfg in H. unfold_M. rewrite Hv, Hl in H. by simplify_eq. }
  destruct (read_data w cfg) as [td [a|data]] eqn:Hd; exists td; eexists; (split; [done|]).
  { unfold score_cfg in H. unfold_M. rewrite Hv, Hl, Hd in H. by simplify_eq/=. }
  rewrite (score_cfg_after_read _ _ _ _ _ _ _ _ Hv Hl Hd) in H.
  destruct (predict_and_save w cfg mp data) as [tp r'] eqn:Hp.
  exists tp. by simplify_eq/=.
Qed.

Lemma predict_and_save_stages w cfg mp data tp r :
  predict_and_save w cfg mp data = (tp, r) ->
  exists t1 r1, predict_and_report w cfg mp data = (t1, r1) /\
  match r1 with
  | inl a => tp = t1 /\ r = inl a
  | inr x => exists t2, report_system w cfg x.1 x.2 = (t2, r) /\ tp = (t1 ++ t2)%list
  end.
Proof.
  unfold predict_and_save. intros H.
  destruct (predict_and_report w cfg mp data) as [t1 [a|x]] eqn:H1;
    exists t1; eexists; (split; [done|]).
  - unfold_M. by simplify_eq.
  - unfold_M. destruct (report_system w cfg x.1 x.2) as [t2 r2]. simplify_eq. eauto.
Qed.

(** *** What every event of a run must satisfy *)

Lemma event_follows_same_options cfg cfg' e :
  same_options cfg cfg' -> event_follows_options cfg' e -> event_follows_options cfg e.
Proof.
  intros (?&?&Hb&Hg&Hj&?&?&?&?&Hn&?&?). destruct e; simpl; try done.
  - by rewrite Hb, Hg, Hn.
  - by rewrite Hj.
Qed.

Lemma sacrebleu_events_follow cfg tr :
  forallb is_sacrebleu_event tr = true -> Forall (event_follows_options cfg) tr.
Proof.
  induction tr as [|e tr IH]; [by constructor|]. simpl.
  intros [He Htr]%andb_prop. constructor; [|by apply IH]. by destruct e.
Qed.

Lemma load_events_follow cfg tr :
  forallb is_load_event tr = true -> Forall (event_follows_options cfg) tr.
Proof.
  induction tr as [|e tr IH]; [by constructor|]. simpl.
  intros [He Htr]%andb_prop. constructor; [|by apply IH]. by destruct e.
Qed.

Lemma stdout_events_follow cfg (lines : list string) :
  Forall (event_follows_options cfg) (EvStdout <$> lines : list event).
Proof. induction lines; by constructor. Qed.

Lemma predict_and_save_events w cfg mp data tp r :
  predict_and_save w cfg mp data = (tp, r) ->
  Forall (event_follows_options cfg) tp.
Proof.
  intros (t1 & r1 & H1 & H)%predict_and_save_stages.
  destruct (predict_and_report_trace _ _ _ _ _ _ H1) as (lines & ->).
  assert (Forall (event_follows_options cfg)
            (EvPredict (the_call cfg mp data) :: (EvStdout <$> lines))) as Ht1.
  { constructor; [done | apply stdout_events_follow]. }
  destruct r1 as [a|x].
  - by destruct H as [-> _].
  - destruct H as (t2 & H2 & ->). apply Forall_app. split; [done|].
    by apply report_system_events in H2 as [? _].
Qed.

Lemma score_cfg_events w cfg0 tr r :
  score_cfg w cfg0 = (tr, r) -> Forall (event_follows_options cfg0) tr.
Proof.
  intros (tv & rv & Hv & H)%score_cfg_stages.
  pose proof (sacrebleu_events_follow cfg0 _ (validate_trace _ _ _ _ Hv)) as Fv.
  destruct rv as [a|cfg]; [destruct H as [-> _]; by constructor|].
  destruct (validate_ok _ _ _ _ Hv) as (Hsame & _).
  destruct H as (tl & rl & Hl & H).
  pose proof (load_events_follow cfg0 _ (load_model_trace _ _ _ _ Hl)) as Fl.
  destruct rl as [a|mp].
  { destruct H as [-> _]. constructor; [done|]. by apply Forall_app. }
  destruct H as (td & rd & Hd & H).
  destruct (read_data_trace _ _ _ _ Hd) as (_ & _ & _ & Fd). specialize (Fd cfg0).
  destruct rd as [a|data].
  { destruct H as [-> _]. constructor; [done|]. rewrite !Forall_app. by split_and!. }
  destruct H as (tp & Hp & ->).
  constructor; [done|]. rewrite !Forall_app. split_and!; try done.
  eapply Forall_impl; [by eapply predict_and_save_events|].
  intros e. by apply event_follows_same_options.
Qed.

(** *** A run that reaches its end *)

Lemma stdout_lines (lines : list string) :
  stdout (EvStdout <$> lines : list event) = lines
  /\ files_read (EvStdout <$> lines : list event) = []
  /\ json_written (EvStdout <$> lines : list event) = []
  /\ predict_calls (EvStdout <$> lines : list event) = [].
Proof.
  unfold stdout, files_read, json_written, predict_calls.
  induction lines as [|l lines (IH1 & IH2 & IH3 & IH4)]; [done|].
  csimpl. by rewrite IH1, IH2, IH3, IH4.
Qed.

Lemma score_cfg_finished w cfg0 tr :
  score_cfg w cfg0 = (tr, inr tt) ->
  exists tv cfg tl mp td data p out,
    validate w cfg0 = (tv, inr cfg)
    /\ load_model w cfg = (tl, inr mp)
    /\ read_data w cfg = (td, inr data)
    /\ predict w (the_call cfg mp data) = inr p
    /\ shape_ok cfg p = true
    /\ length out = length data
    /\ (forall i, out !! i = scored_record p i <$> data !! i)
    /\ stdout tr
       = (segment_lines w p (length data)
          ++ system_line w (sys_score_of p)
             :: match to_json cfg with
                | TJStr path => [saved_line path]
                | TJBool _ => []
                end)%list
    /\ json_written tr
       = match to_json cfg with
         | TJStr path => [(path, out)]
         | TJBool _ => []
         end
    /\ predict_calls tr = [the_call cfg mp data]
    /\ files_read tr = files_read td.
Proof.
  intros (tv & rv & Hv & H)%score_cfg_stages.
  destruct rv as [a|cfg]; [by destruct H|].
  destruct H as (tl & [a|mp] & Hl & H); [by destruct H|].
  destruct H as (td & [a|data] & Hd & H); [by destruct H|].
  destruct H as (tp & (t1 & r1 & H1 & H)%predict_and_save_stages & ->).
  destruct r1 as [a|[sys out]]; [by destruct H|].
  destruct H as (t2 & H2 & ->). simpl in H2.
  destruct (predict_and_report_inv _ _ _ _ _ _ H1) as (p & Hp & Hs).
  destruct (predict_and_report_ok _ _ _ _ _ Hp Hs) as (out' & H1' & Hlen & Hout).
  rewrite H1 in H1'. simplify_eq.
  apply report_system_inv in H2 as ->.
  exists tv, cfg, tl, mp, td, data, p, out'.
  destruct (sacrebleu_events_quiet _ (validate_trace _ _ _ _ Hv)) as (Sv & Rv & Jv & Pv & _).
  destruct (load_events_quiet _ (load_model_trace _ _ _ _ Hl)) as (Sl & Rl & Jl & Pl).
  destruct (read_data_trace _ _ _ _ Hd) as (Sd & Jd & Pd & _).
  destruct (stdout_lines (segment_lines w p (length data))) as (Ss & Rs & Js & Ps).
  split_and!; try done.
  - change (EvSeed (seed_everything cfg0) :: ?t) with ([EvSeed (seed_everything cfg0)] ++ t)%list.
    change (EvPredict ?c :: ?t) with ([EvPredict c] ++ t)%list.
    rewrite !stdout_app, Sv, Sl, Sd, Ss. simpl. f_equal.
    by destruct (to_json cfg).
  - change (EvSeed (seed_everything cfg0) :: ?t) with ([EvSeed (seed_everything cfg0)] ++ t)%list.
    change (EvPredict ?c :: ?t) with ([EvPredict c] ++ t)%list.
    rewrite !json_written_app, Jv, Jl, Jd, Js. simpl.
    by destruct (to_json cfg).
  - change (EvSeed (seed_everything cfg0) :: ?t) with ([EvSeed (seed_everything cfg0)] ++ t)%list.
    change (EvPredict ?c :: ?t) with ([EvPredict c] ++ t)%list.
    rewrite !predict_calls_app, Pv, Pl, Pd, Ps. simpl.
    by destruct (to_json cfg).
  - change (EvSeed (seed_everything cfg0) :: ?t) with ([EvSeed (seed_everything cfg0)] ++ t)%list.
    change (EvPredict ?c :: ?t) with ([EvPredict c] ++ t)%list.
    rewrite !files_read_app, Rv, Rl, Rs. simpl.
    destruct (to_json cfg); simpl; by rewrite app_nil_r.
Qed.

(** *** The lines of standard output *)

Lemma prefix_app (a b : string) : String.prefix a (a ++ b) = true.
Proof.
  induction a as [|c a IH]; [by destruct b|].
  change (String.prefix (String c a) (String c (a ++ b)) = true). simpl.
  by destruct (ascii_dec c c).
Qed.

Lemma app_assoc_string (a b c : string) : ((a ++ b) ++ c = a ++ (b ++ c))%string.
Proof.
  induction a as [|x a IH]; [done|].
  change (String x ((a ++ b) ++ c) = String x (a ++ (b ++ c))). by rewrite IH.
Qed.

Lemma prefix_app4 (a b c d e : string) :
  String.prefix (a ++ b ++ c ++ d) (a ++ b ++ c ++ d ++ e) = true.
Proof.
  assert (a ++ b ++ c ++ d ++ e = (a ++ b ++ c ++ d) ++ e) as ->
    by (by rewrite !app_assoc_string).
  apply prefix_app.
Qed.

Lemma segment_line_is_segment_line w i (score : Score) :
  is_segment_line i (segment_line w i score) = true
  /\ is_system_line (segment_line w i score) = false.
Proof.
  split; [|done]. apply prefix_app4.
Qed.

Lemma segment_line_mc_is_segment_line w i (mean std : Score) :
  is_segment_line i (segment_line_mc w i mean std) = true
  /\ is_system_line (segment_line_mc w i mean std) = false.
Proof.
  split; [|done]. apply prefix_app4.
Qed.

Lemma segment_lines_spec w p n :
  length (segment_lines w p n)
  = match p with
    | Pred2 scores _ => length scores `min` n
    | Pred3 means stds _ => (length means `min` length stds) `min` n
    end
  /\ (forall i l, segment_lines w p n !! i = Some l ->
               is_segment_line i l = true /\ is_system_line l = false).
Proof.
  destruct p as [scores sys|means stds sys]; simpl.
  - split.
    + rewrite length_imap, length_take. lia.
    + intros i l. rewrite list_lookup_imap.
      destruct (take n scores !! i) as [sc|]; [|done]. intros [= <-].
      apply segment_line_is_segment_line.
  - split.
    + rewrite length_imap, length_take, length_zip. lia.
    + intros i l. rewrite list_lookup_imap.
      destruct (take n (zip means stds) !! i) as [[m sd]|]; [|done]. intros [= <-].
      apply segment_line_mc_is_segment_line.
Qed.

Lemma segment_lines_no_system_line w p n :
  List.filter is_system_line (segment_lines w p n) = [].
Proof.
  destruct (segment_lines_spec w p n) as [_ H].
  induction (segment_lines w p n) as [|l ls IH] using rev_ind; [done|].
  rewrite List.filter_app. rewrite IH.
  - simpl. destruct (H (length ls) l) as [_ ->]; [|done].
    by rewrite lookup_app_r, Nat.sub_diag by lia.
  - intros i l' Hi. apply H. by rewrite lookup_app_l by (by eapply lookup_lt_Some).
Qed.

(** C7: the standard output of a run that reaches its end is the line of
    every scored segment, numbered from 0 in the order of the input, then the
    one "System score" line (and then, when a JSON file was written, the
    notice that says where).  With one score per sample there is a line for
    every record. *)
Theorem stdout_of_successful_run w args cfg tr :
  parse_args w args = ret cfg ->
  score_command w args = (tr, inr tt) ->
  exists c p,
    predict_calls tr = [c] /\ predict w c = inr p
    /\ stdout tr
       = (segment_lines w p (length (pc_samples c))
          ++ system_line w (sys_score_of p)
             :: match to_json cfg with
                | TJStr path => [saved_line path]
                | TJBool _ => []
                end)%list
    /\ (forall i l, segment_lines w p (length (pc_samples c)) !! i = Some l ->
                 is_segment_line i l = true)
    /\ (one_score_per_sample c p ->
        length (segment_lines w p (length (pc_samples c))) = length (pc_samples c))
    /\ length (List.filter is_system_line (stdout tr)) = 1.
Proof.
  intros Hp H. rewrite (score_command_parsed _ _ _ Hp) in H.
  apply score_cfg_finished in H
    as (tv & cfg' & tl & mp & td & data & p & out & Hv & _ & _ & Hpr & _ & _ & _
        & Hout & _ & Hc & _).
  destruct (validate_ok _ _ _ _ Hv) as ((_&_&_&_&Hj&_) & _).
  exists (the_call cfg' mp data), p. rewrite Hj in Hout.
  destruct (segment_lines_spec w p (length data)) as [Hlen Hl].
  split_and!; try done.
  - intros i l Hi. by apply Hl.
  - simpl. rewrite Hlen. destruct p; simpl; [lia|]. intros [-> ->]. lia.
  - rewrite Hout, List.filter_app, segment_lines_no_system_line. simpl.
    unfold is_system_line at 1, system_line. rewrite prefix_app.
    by destruct (to_json cfg).
Qed.

(** *** Options and what is done with them *)

Lemma parse_args_inv w args t cfg :
  parse_args w args = (t, inr cfg) ->
  t = [] /\ cfg = namespace_of (cpu_count w) args.
Proof.
  unfold parse_args. unfold_M. case_match; [|done]. by intros [= <- <-].
Qed.

Lemma omitted_last_arg {A} (sel : cli_arg -> option A) args :
  omitted sel args -> last_arg sel args = None.
Proof.
  unfold omitted, last_arg. intros H.
  assert (omap sel args = []) as ->; [|done].
  induction H as [|a args Ha _ IH]; [done|]. simpl. by rewrite Ha.
Qed.

(** C5: when [--batch_size] is omitted, every [predict] call of the run gets
    the default of the [add_argument] call as its batch size, which is 8 (and
    not the 32 of the help text). *)
Theorem default_batch_size_forwarded w args tr r c :
  omitted arg_batch_size args ->
  score_command w args = (tr, r) ->
  EvPredict c ∈ tr ->
  pc_batch_size c = 8%Z.
Proof.
  intros Ho H Hc. unfold score_command in H.
  apply bind_inv in H as [(a & Hpa & _) | (t & cfg & t' & Hpa & H & ->)].
  { unfold parse_args in Hpa. unfold_M. case_match; simplify_eq.
    by apply elem_of_nil in Hc. }
  apply parse_args_inv in Hpa as [-> ->]. simpl in Hc.
  apply score_cfg_events in H.
  rewrite Forall_forall in H. destruct (H _ Hc) as (-> & _).
  simpl. by rewrite (omitted_last_arg _ _ Ho).
Qed.

Lemma json_written_nil tr :
  (forall path data, EvJsonDump path data ∉ tr) -> json_written tr = [].
Proof.
  unfold json_written. induction tr as [|e tr IH]; [done|]. intros H.
  assert (omap (fun e => match e with EvJsonDump p d => Some (p, d) | _ => None end) tr = [])
    as Htr.
  { apply IH. intros path data Hin. apply (H path data). by right. }
  destruct e; csimpl; try done.
  exfalso. eapply H. by left.
Qed.

(** C9: a JSON file is written exactly when [--to_json] is a string.  With a
    boolean, [True] included, no run writes a file, whatever its outcome; a
    run that reaches its end with a string has written one file, at that
    path. *)
Theorem json_written_iff_to_json_is_string w args cfg tr r :
  parse_args w args = ret cfg ->
  score_command w args = (tr, r) ->
  (forall b, to_json cfg = TJBool b -> json_written tr = [])
  /\ (r = inr tt ->
      (exists path, to_json cfg = TJStr path) <-> json_written tr <> [])
  /\ (r = inr tt -> forall path, to_json cfg = TJStr path ->
      exists data, json_written tr = [(path, data)]).
Proof.
  intros Hp H. rewrite (score_command_parsed _ _ _ Hp) in H.
  assert (forall b, to_json cfg = TJBool b -> json_written tr = []) as Hbool.
  { intros b Hb. apply json_written_nil. intros path data Hin.
    apply score_cfg_events in H. rewrite Forall_forall in H.
    specialize (H _ Hin). simpl in H. congruence. }
  assert (r = inr tt -> forall path, to_json cfg = TJStr path ->
          exists data, json_written tr = [(path, data)]) as Hstr.
  { intros -> path Hj.
    apply score_cfg_finished in H
      as (tv & cfg' & tl & mp & td & data & p & out & Hv & _ & _ & _ & _ & _ & _
          & _ & Hjson & _).
    destruct (validate_ok _ _ _ _ Hv) as ((_&_&_&_&Hj'&_) & _).
    rewrite Hj', Hj in Hjson. eauto. }
  split_and!; try done.
  intros Hr. split.
  - intros [path Hj]. destruct (Hstr Hr path Hj) as [data ->]. done.
  - intros Hne. destruct (to_json cfg) as [b|path] eqn:Hj; [|eauto].
    by rewrite (Hbool b) in Hne.
Qed.

(** *** The records *)

Lemma score_cfg_files_read w cfg0 tv cfg tr r :
  score_cfg w cfg0 = (tr, r) ->
  validate w cfg0 = (tv, inr cfg) ->
  files_read tr = []
  \/ exists td rd, read_data w cfg = (td, rd) /\ files_read tr = files_read td.
Proof.
  intros (tv' & rv & Hv & H)%score_cfg_stages Hv'. rewrite Hv' in Hv. simplify_eq.
  destruct (sacrebleu_events_quiet _ (validate_trace _ _ _ _ Hv')) as (_ & Rv & _).
  destruct H as (tl & rl & Hl & H).
  destruct (load_events_quiet _ (load_model_trace _ _ _ _ Hl)) as (_ & Rl & _).
  destruct rl as [a|mp].
  { destruct H as [-> _]. left.
    change (EvSeed ?x :: ?t) with ([EvSeed (Score := Score) x] ++ t)%list.
    by rewrite !files_read_app, Rv, Rl. }
  destruct H as (td & rd & Hd & H). right. exists td, rd. split; [done|].
  destruct rd as [a|data].
  { destruct H as [-> _].
    change (EvSeed ?x :: ?t) with ([EvSeed (Score := Score) x] ++ t)%list.
    by rewrite !files_read_app, Rv, Rl. }
  destruct H as (tp & (t1 & r1 & H1 & H)%predict_and_save_stages & ->).
  destruct (predict_and_report_trace _ _ _ _ _ _ H1) as (lines & ->).
  destruct (stdout_lines lines) as (_ & Rs & _).
  change (EvSeed ?x :: ?t) with ([EvSeed (Score := Score) x] ++ t)%list.
  rewrite !files_read_app, Rv, Rl. simpl.
  assert (files_read tp = []) as ->; [|by rewrite app_nil_r].
  destruct r1 as [a|x].
  - destruct H as [-> _]. done.
  - destruct H as (t2 & H2 & ->).
    apply report_system_events in H2 as (_ & R2 & _).
    change (EvPredict ?c :: ?t) with ([EvPredict c] ++ t)%list.
    by rewrite !files_read_app, Rs, R2.
Qed.

Lemma read_data_qe_files w cfg s t td rd :
  str_in "comet-qe" (model cfg) = true ->
  sources cfg = Some s -> translations cfg = Some t ->
  read_data w cfg = (td, rd) ->
  files_read td `prefix_of` [path_call s; path_call t].
Proof.
  intros Hq Hs Ht. unfold read_data, read_stripped, call_path.
  rewrite Hq, Hs, Ht. unfold_M. intros H.
  repeat (case_match; simplify_eq/=); unfold files_read; simpl;
    first [done | by eexists [_]].
Qed.

(** C6: for a model whose name does not contain "comet-qe", the [i]-th
    record maps "src", "mt" and "ref" to the stripped [i]-th lines of the
    sources, translations and references files, and to nothing else.  For a
    model whose name contains "comet-qe", a record has the "src" and "mt"
    fields only, and no run opens any file but the sources and the
    translations. *)
Theorem assembled_records w args cfg tv cfg' s t S T :
  parse_args w args = ret cfg ->
  validate w cfg = (tv, inr cfg') ->
  sources cfg' = Some s -> translations cfg' = Some t ->
  open_readlines w (path_call s) = inr S ->
  open_readlines w (path_call t) = inr T ->
  if str_in "comet-qe" (model cfg) then
    (exists data,
       read_data w cfg'
       = ([EvOpenRead (path_call s); EvOpenRead (path_call t)], inr data)
       /\ forall i,
           data !! i
           = (x ← S !! i; y ← T !! i;
              Some ({[ "src" := VText (strip x); "mt" := VText (strip y) ]} : record)))
    /\ (forall tr r, score_command w args = (tr, r) ->
        files_read tr `prefix_of` [path_call s; path_call t])
  else
    forall r R,
      references cfg' = Some r ->
      open_readlines w (path_call r) = inr R ->
      exists data,
        read_data w cfg'
        = ([EvOpenRead (path_call s); EvOpenRead (path_call t); EvOpenRead (path_call r)],
           inr data)
        /\ forall i,
            data !! i
            = (x ← S !! i; y ← T !! i; z ← R !! i;
               Some ({[ "src" := VText (strip x); "mt" := VText (strip y);
                        "ref" := VText (strip z) ]} : record)).
Proof.
  intros Hp Hv Hs Ht HS HT.
  destruct (validate_ok _ _ _ _ Hv) as ((_&_&_&_&_&Hm&_) & _).
  rewrite <- Hm.
  destruct (str_in "comet-qe" (model cfg')) eqn:Hq.
  - split.
    + eexists. split; [by apply read_data_qe|].
      intros i. rewrite assemble_src_mt_lookup, !list_lookup_fmap.
      destruct (S !! i); [|done]. by destruct (T !! i).
    + intros tr r H. rewrite (score_command_parsed _ _ _ Hp) in H.
      destruct (score_cfg_files_read _ _ _ _ _ _ H Hv) as [-> | (td & rd & Hd & ->)].
      * apply prefix_nil.
      * by eapply read_data_qe_files.
  - intros r R Hr HR. eexists. split; [by eapply read_data_ref|].
    intros i. rewrite assemble_src_mt_ref_lookup, !list_lookup_fmap.
    destruct (S !! i); [|done]. destruct (T !! i); [|done]. by destruct (R !! i).
Qed.

Lemma read_data_inv w cfg td data :
  read_data w cfg = (td, inr data) ->
  (exists S T, data = assemble [("src", S); ("mt", T)])
  \/ (exists S T R, data = assemble [("src", S); ("mt", T); ("ref", R)]).
Proof.
  unfold read_data. intros H.
  destruct (read_stripped w (sources cfg)) as [t1 [a1|S]]; [by unfold_M|].
  destruct (read_stripped w (translations cfg)) as [t2 [a2|T]]; [by unfold_M|].
  destruct (str_in "comet-qe" (model cfg)).
  - unfold_M. simplify_eq. left. eauto.
  - destruct (read_stripped w (references cfg)) as [t3 [a3|R]]; [by unfold_M|].
    unfold_M. simplify_eq. right. eauto.
Qed.

Lemma assembled_record_has_no_score w cfg td data i (sample : record) :
  read_data w cfg = (td, inr data) ->
  data !! i = Some sample ->
  sample !! "COMET" = None /\ sample !! "variance" = None.
Proof.
  intros [(S & T & ->) | (S & T & R & ->)]%read_data_inv.
  - rewrite assemble_src_mt_lookup.
    destruct (S !! i); [|done]. destruct (T !! i); [|done]. by intros [= <-].
  - rewrite assemble_src_mt_ref_lookup.
    destruct (S !! i); [|done]. destruct (T !! i); [|done].
    destruct (R !! i); [|done]. by intros [= <-].
Qed.

Lemma read_data_length w cfg s t S T n td data :
  sources cfg = Some s -> translations cfg = Some t ->
  open_readlines w (path_call s) = inr S ->
  open_readlines w (path_call t) = inr T ->
  length S = n -> length T = n ->
  (str_in "comet-qe" (model cfg) = false ->
   exists r R, references cfg = Some r /\ open_readlines w (path_call r) = inr R
               /\ length R = n) ->
  read_data w cfg = (td, inr data) ->
  length data = n.
Proof.
  intros Hs Ht HS HT HlS HlT Href Hd.
  destruct (str_in "comet-qe" (model cfg)) eqn:Hq.
  - rewrite (read_data_qe _ _ _ _ _ _ Hq Hs Ht HS HT) in Hd. simplify_eq.
    rewrite assemble_src_mt_length, !length_fmap. lia.
  - destruct (Href eq_refl) as (r & R & Hr & HR & HlR).
    rewrite (read_data_ref _ _ _ _ _ _ _ _ Hq Hs Ht Hr HS HT HR) in Hd. simplify_eq.
    rewrite assemble_src_mt_ref_length, !length_fmap. lia.
Qed.

(** C1: with a path as [--to_json], input files of [n] lines each, and a
    model that returns one score for every sample, a run that reaches its
    end has written one JSON file, at that path, of exactly [n] records: the
    [i]-th is the [i]-th assembled record, which has no "COMET" field, with
    the field "COMET" added and set to the [i]-th score (and, with MC
    dropout, the field "variance" added and set to the [i]-th variance). *)
Theorem json_records_of_successful_run w args cfg tv cfg' path s t S T n tr :
  predict_contract w ->
  parse_args w args = ret cfg ->
  to_json cfg = TJStr path ->
  validate w cfg = (tv, inr cfg') ->
  sources cfg' = Some s -> translations cfg' = Some t ->
  open_readlines w (path_call s) = inr S ->
  open_readlines w (path_call t) = inr T ->
  length S = n -> length T = n ->
  (str_in "comet-qe" (model cfg') = false ->
   exists r R, references cfg' = Some r /\ open_readlines w (path_call r) = inr R
               /\ length R = n) ->
  score_command w args = (tr, inr tt) ->
  exists td c p out,
    read_data w cfg' = (td, inr (pc_samples c))
    /\ predict_calls tr = [c] /\ predict w c = inr p
    /\ json_written tr = [(path, out)]
    /\ length (pc_samples c) = n /\ length out = n
    /\ forall i, i < n ->
        exists sample,
          pc_samples c !! i = Some sample
          /\ sample !! "COMET" = None /\ sample !! "variance" = None
          /\ match p with
             | Pred2 scores _ =>
                 mc_truthy (mc_dropout cfg) = false
                 /\ exists score,
                     scores !! i = Some score
                     /\ out !! i = Some (<["COMET" := VScore score]> sample)
             | Pred3 means stds _ =>
                 mc_truthy (mc_dropout cfg) = true
                 /\ exists mean std,
                     means !! i = Some mean /\ stds !! i = Some std
                     /\ out !! i = Some (<["variance" := VScore std]>
                                           (<["COMET" := VScore mean]> sample))
             end.
Proof.
  intros Hcontract Hp Hj Hv Hs Ht HS HT HlS HlT Href H.
  rewrite (score_command_parsed _ _ _ Hp) in H.
  apply score_cfg_finished in H
    as (tv' & cfg'' & tl & mp & td & data & p & out & Hv' & Hl & Hd & Hpr & Hshape
        & Hlen & Hout & _ & Hjson & Hcalls & _).
  rewrite Hv in Hv'. simplify_eq.
  destruct (validate_ok _ _ _ _ Hv) as ((_&_&_&_&Hj'&_&_&Hmc&_) & _).
  rewrite Hj', Hj in Hjson.
  pose proof (read_data_length _ _ _ _ _ _ _ _ _ Hs Ht HS HT eq_refl HlT Href Hd) as Hn.
  pose proof (Hcontract _ _ Hpr) as Hone.
  exists td, (the_call cfg'' mp data), p, out. simpl.
  split_and!; try done; [congruence|].
  intros i Hi.
  destruct (lookup_lt_is_Some_2 data i) as [sample Hsample]; [lia|].
  destruct (assembled_record_has_no_score _ _ _ _ _ _ Hd Hsample) as [Hc Hvar].
  exists sample. split_and!; try done.
  specialize (Hout i). rewrite Hsample in Hout. simpl in Hout.
  unfold shape_ok in Hshape. rewrite Hmc in Hshape.
  destruct p as [scores sys|means stds sys]; simpl in *.
  - split; [by destruct (mc_truthy (mc_dropout cfg))|].
    destruct (lookup_lt_is_Some_2 scores i) as [score Hscore]; [lia|].
    exists score. by rewrite Hscore in Hout |- *.
  - split; [done|]. destruct Hone as [Hm Hsd].
    destruct (lookup_lt_is_Some_2 means i) as [mean Hmean]; [lia|].
    destruct (lookup_lt_is_Some_2 stds i) as [std Hstd]; [lia|].
    exists mean, std. split_and!; try done.
    rewrite lookup_zip_with, Hmean, Hstd in Hout. done.
Qed.

(** *** Files of different lengths *)

Lemma predict_and_save_calls w cfg mp data tp r :
  predict_and_save w cfg mp data = (tp, r) ->
  predict_calls tp = [the_call cfg mp data].
Proof.
  intros (t1 & r1 & H1 & H)%predict_and_save_stages.
  destruct (predict_and_report_trace _ _ _ _ _ _ H1) as (lines & ->).
  destruct (stdout_lines lines) as (_ & _ & _ & Ps).
  destruct r1 as [a|x].
  - destruct H as [-> _].
    change (EvPredict ?c :: ?t) with ([EvPredict c] ++ t)%list.
    by rewrite predict_calls_app, Ps.
  - destruct H as (t2 & H2 & ->).
    apply report_system_events in H2 as (_ & _ & P2).
    change (EvPredict ?c :: ?t) with ([EvPredict c] ++ t)%list.
    by rewrite !predict_calls_app, Ps, P2.
Qed.

Lemma predict_and_save_ok w cfg mp data p :
  predict w (the_call cfg mp data) = inr p ->
  shape_ok cfg p = true ->
  (forall path, to_json cfg = TJStr path -> open_write w path = inr tt) ->
  exists tp, predict_and_save w cfg mp data = (tp, inr tt).
Proof.
  intros Hp Hs Hw.
  destruct (predict_and_report_ok _ _ _ _ _ Hp Hs) as (out & H1 & _).
  unfold predict_and_save.
  rewrite (bind_ok _ _ _ _ H1). simpl.
  rewrite (report_system_ok _ _ _ _ Hw). simpl. eauto.
Qed.

(** C8: input files of different lengths raise no error.  The records
    assembled are as many as the shortest file read has lines; [predict] is
    called once, on these records; and when the prediction comes back (and
    the JSON file, if asked for, can be opened) the run reaches its end. *)
Theorem differing_line_counts_truncate w args cfg tv cfg' tl mp s t r S T R :
  parse_args w args = ret cfg ->
  validate w cfg = (tv, inr cfg') ->
  load_model w cfg' = (tl, inr mp) ->
  sources cfg' = Some s -> translations cfg' = Some t ->
  open_readlines w (path_call s) = inr S ->
  open_readlines w (path_call t) = inr T ->
  (str_in "comet-qe" (model cfg') = false ->
   references cfg' = Some r /\ open_readlines w (path_call r) = inr R) ->
  let n := if str_in "comet-qe" (model cfg')
           then length S `min` length T
           else length S `min` (length T `min` length R) in
  exists td data,
    read_data w cfg' = (td, inr data)
    /\ length data = n
    /\ (forall tr res, score_command w args = (tr, res) ->
        predict_calls tr = [the_call cfg' mp data])
    /\ (forall p,
          predict w (the_call cfg' mp data) = inr p ->
          shape_ok cfg' p = true ->
          (forall path, to_json cfg' = TJStr path -> open_write w path = inr tt) ->
          exists tr, score_command w args = (tr, inr tt)).
Proof.
  intros Hp Hv Hl Hs Ht HS HT Href n.
  assert (exists td data, read_data w cfg' = (td, inr data) /\ length data = n)
    as (td & data & Hd & Hn).
  { subst n. destruct (str_in "comet-qe" (model cfg')) eqn:Hq.
    - do 2 eexists. split; [by apply read_data_qe|].
      by rewrite assemble_src_mt_length, !length_fmap.
    - destruct (Href eq_refl) as [Hr HR].
      do 2 eexists. split; [by eapply read_data_ref|].
      by rewrite assemble_src_mt_ref_length, !length_fmap. }
  exists td, data.
  pose proof (score_cfg_after_read _ _ _ _ _ _ _ _ Hv Hl Hd) as Hrun.
  rewrite <- (score_command_parsed _ _ _ Hp) in Hrun.
  destruct (sacrebleu_events_quiet _ (validate_trace _ _ _ _ Hv)) as (_ & _ & _ & Pv & _).
  destruct (load_events_quiet _ (load_model_trace _ _ _ _ Hl)) as (_ & _ & _ & Pl).
  destruct (read_data_trace _ _ _ _ Hd) as (_ & _ & Pd & _).
  split_and!; try done.
  - intros tr res H. rewrite Hrun in H. simplify_eq.
    change (EvSeed ?x :: ?t) with ([EvSeed (Score := Score) x] ++ t)%list.
    rewrite !predict_calls_app, Pv, Pl, Pd. simpl.
    destruct (predict_and_save w cfg' mp data) as [tp r'] eqn:Hps.
    by apply predict_and_save_calls in Hps.
  - intros p Hpr Hshape Hw.
    destruct (predict_and_save_ok _ _ _ _ _ Hpr Hshape Hw) as (tp & Hps).
    rewrite Hps in Hrun. eauto.
Qed.

(** *** A command line without translations *)

Lemma resolve_sacrebleu_ignores_translations w cfg o d t r :
  resolve_sacrebleu w cfg d = (t, r) ->
  resolve_sacrebleu w (set_translations o cfg) d
  = (t, match r with inl a => inl a | inr c => inr (set_translations o c) end).
Proof.
  unfold resolve_sacrebleu, unpack2, getitem0. unfold_M.
  intros H. by repeat (case_match; simplify_eq/=).
Qed.

Lemma validate_ignores_translations w cfg o t r :
  validate w cfg = (t, r) ->
  validate w (set_translations o cfg)
  = (t, match r with inl a => inl a | inr c => inr (set_translations o c) end).
Proof.
  unfold validate. simpl.
  destruct (sacrebleu_dataset cfg) as [d|].
  - destruct (resolve_sacrebleu w cfg d) as [t' r'] eqn:Hr.
    rewrite (resolve_sacrebleu_ignores_translations _ _ o _ _ _ Hr).
    unfold_M. intros H.
    destruct (bool_decide (sources cfg = None)), (bool_decide (references cfg = None));
      simpl in *; simplify_eq; try done;
      destruct r' as [a|c]; simpl in *; simplify_eq; try done;
      destruct (bool_decide (references c = None) && negb (any_refless (model c)));
      by simplify_eq/=.
  - unfold_M. intros H.
    destruct (bool_decide (sources cfg = None)); simpl in *; simplify_eq; try done.
    destruct (bool_decide (references cfg = None) && negb (any_refless (model cfg)));
      by simplify_eq/=.
Qed.

Lemma load_model_abort w cfg t a :
  load_model w cfg = (t, inl a) -> exists ex, a = Uncaught ex.
Proof.
  unfold load_model. unfold_M. intros H.
  repeat (case_match; simplify_eq/=); eauto.
Qed.

Lemma read_data_no_translations w cfg :
  translations cfg = None ->
  exists td ex, read_data w cfg = (td, inl (Uncaught ex)) /\ predict_calls td = []
  /\ (forall s S, sources cfg = Some s -> open_readlines w (path_call s) = inr S ->
       td = [EvOpenRead (path_call s)]
       /\ ex = mkExn KException "'NoneType' object is not callable").
Proof.
  intros Ht. unfold read_data, read_stripped, call_path. rewrite Ht. unfold_M.
  destruct (sources cfg) as [s|]; simpl.
  - destruct (open_readlines w (path_call s)) as [e|S] eqn:HS; simpl.
    + do 2 eexists. split_and!; try done. intros ? ? [= <-]. by rewrite HS.
    + do 2 eexists. split_and!; try done. intros ? ? [= <-]. by rewrite HS.
  - do 2 eexists. split_and!; try done.
Qed.

(** C10, as amended: nothing in the validation looks at [--translations]:
    its verdict is the same with and without.  So a command line without
    [--translations] that passes the checks on the other options never ends
    with a usage error: the run stops with an uncaught exception before any
    prediction, and when the model loads and the sources file can be read,
    that exception is the call of [cfg.translations], which is [None], right
    after the sources file was opened. *)
Theorem missing_translations_uncaught w args cfg tv cfg' :
  parse_args w args = ret cfg ->
  translations cfg = None ->
  validate w cfg = (tv, inr cfg') ->
  (forall o, validate w (set_translations o cfg) = (tv, inr (set_translations o cfg')))
  /\ (exists tr ex, score_command w args = (tr, inl (Uncaught ex))
                  /\ predict_calls tr = [])
  /\ (forall tl mp s S,
        load_model w cfg' = (tl, inr mp) ->
        sources cfg' = Some s ->
        open_readlines w (path_call s) = inr S ->
        score_command w args
        = ((EvSeed (seed_everything cfg) :: tv ++ tl ++ [EvOpenRead (path_call s)])%list,
           inl (Uncaught (mkExn KException "'NoneType' object is not callable")))).
Proof.
  intros Hp Ht Hv.
  destruct (validate_ok _ _ _ _ Hv) as ((Ht'&_) & _). rewrite Ht in Ht'.
  destruct (read_data_no_translations w cfg' Ht') as (td & ex & Hd & Pd & Hsrc).
  rewrite (score_command_parsed _ _ _ Hp).
  destruct (sacrebleu_events_quiet _ (validate_trace _ _ _ _ Hv)) as (_ & _ & _ & Pv & _).
  split_and!.
  - intros o. by rewrite (validate_ignores_translations _ _ o _ _ Hv).
  - destruct (load_model w cfg') as [tl [a|mp]] eqn:Hl.
    + destruct (load_model_abort _ _ _ _ Hl) as [e' ->].
      destruct (load_events_quiet _ (load_model_trace _ _ _ _ Hl)) as (_ & _ & _ & Pl).
      exists (EvSeed (seed_everything cfg) :: tv ++ tl)%list, e'. split.
      * unfold score_cfg. unfold_M. by rewrite Hv, Hl.
      * change (EvSeed ?x :: ?t) with ([EvSeed (Score := Score) x] ++ t)%list.
        by rewrite !predict_calls_app, Pv, Pl.
    + destruct (load_events_quiet _ (load_model_trace _ _ _ _ Hl)) as (_ & _ & _ & Pl).
      exists (EvSeed (seed_everything cfg) :: tv ++ tl ++ td)%list, ex. split.
      * unfold score_cfg. unfold_M. by rewrite Hv, Hl, Hd.
      * change (EvSeed ?x :: ?t) with ([EvSeed (Score := Score) x] ++ t)%list.
        by rewrite !predict_calls_app, Pv, Pl, Pd.
  - intros tl mp s S Hl Hs HS. destruct (Hsrc s S Hs HS) as [-> ->].
    unfold score_cfg. unfold_M. by rewrite Hv, Hl, Hd.
Qed.

End Properties.

(** ** The properties at work in the small world *)

Lemma sacrebleu_excludes_manual_dataset_witness :
  score_command Demo.world [ArgSacrebleuDataset "wmt20:en-de"; Demo.src]
  = ([EvSeed 12],
     inl (UsageError
            "Cannot use sacrebleu datasets (-d) with manually-specified datasets (-s and -r)")).
Proof.
  apply (sacrebleu_excludes_manual_dataset Demo.world
           [ArgSacrebleuDataset "wmt20:en-de"; Demo.src]
           (namespace_of 4 [ArgSacrebleuDataset "wmt20:en-de"; Demo.src]) "wmt20:en-de").
  - reflexivity.
  - reflexivity.
  - left. discriminate.
Defined.

Lemma malformed_sacrebleu_dataset_reported_witness :
  exists msg,
    score_command Demo.world [ArgSacrebleuDataset "wmt20"]
    = ([EvSeed 12], inl (UsageError msg))
    /\ (sources (namespace_of 4 [ArgSacrebleuDataset "wmt20"]) = None ->
        references (namespace_of 4 [ArgSacrebleuDataset "wmt20"]) = None ->
        msg = "SacreBLEU testset format must be TESTSET:LANGPAIR, e.g., wmt20:de-en").
Proof.
  apply (malformed_sacrebleu_dataset_reported Demo.world [ArgSacrebleuDataset "wmt20"]
           (namespace_of 4 [ArgSacrebleuDataset "wmt20"]) "wmt20").
  - reflexivity.
  - reflexivity.
  - reflexivity.
Defined.

Lemma missing_references_rejected_witness :
  exists tr,
    score_command Demo.world [Demo.src; Demo.mt]
    = (tr, inl (UsageError
                  "wmt20-comet-da requires -r/--references or -d/--sacrebleu_dataset."))
    /\ existsb is_model_event tr = false.
Proof.
  apply (missing_references_rejected Demo.world [Demo.src; Demo.mt]
           (namespace_of 4 [Demo.src; Demo.mt])).
  - reflexivity.
  - discriminate.
  - reflexivity.
  - reflexivity.
  - reflexivity.
Defined.

Lemma default_batch_size_forwarded_witness :
  EvPredict (the_call (namespace_of 4 [Demo.src; Demo.mt; Demo.ref])
               "/models/wmt20-comet-da.ckpt" Demo.records)
    ∈ (score_command Demo.world [Demo.src; Demo.mt; Demo.ref]).1
  /\ pc_batch_size (the_call (namespace_of 4 [Demo.src; Demo.mt; Demo.ref])
                      "/models/wmt20-comet-da.ckpt" Demo.records) = 8%Z.
Proof.
  assert (EvPredict (the_call (namespace_of 4 [Demo.src; Demo.mt; Demo.ref])
                       "/models/wmt20-comet-da.ckpt" Demo.records)
            ∈ (score_command Demo.world [Demo.src; Demo.mt; Demo.ref]).1) as Hin.
  { apply (list_elem_of_lookup_2 _ 8%nat). vm_compute. reflexivity. }
  split; [exact Hin|].
  apply (default_batch_size_forwarded Demo.world [Demo.src; Demo.mt; Demo.ref]
           (score_command Demo.world [Demo.src; Demo.mt; Demo.ref]).1
           (score_command Demo.world [Demo.src; Demo.mt; Demo.ref]).2).
  - repeat constructor.
  - vm_compute. reflexivity.
  - exact Hin.
Defined.

Lemma stdout_of_successful_run_witness :
  exists c p,
    predict_calls (score_command Demo.world [Demo.src; Demo.mt; Demo.ref; Demo.json]).1 = [c]
    /\ predict Demo.world c = inr p
    /\ stdout (score_command Demo.world [Demo.src; Demo.mt; Demo.ref; Demo.json]).1
       = (segment_lines Demo.world p (length (pc_samples c))
          ++ system_line Demo.world (sys_score_of p)
             :: match to_json (namespace_of 4 [Demo.src; Demo.mt; Demo.ref; Demo.json]) with
                | TJStr path => [saved_line path]
                | TJBool _ => []
                end)%list
    /\ (forall i l, segment_lines Demo.world p (length (pc_samples c)) !! i = Some l ->
                 is_segment_line i l = true)
    /\ (one_score_per_sample c p ->
        length (segment_lines Demo.world p (length (pc_samples c))) = length (pc_samples c))
    /\ length (List.filter is_system_line
                 (stdout (score_command Demo.world
                            [Demo.src; Demo.mt; Demo.ref; Demo.json]).1)) = 1.
Proof.
  apply (stdout_of_successful_run Demo.world [Demo.src; Demo.mt; Demo.ref; Demo.json]
           (namespace_of 4 [Demo.src; Demo.mt; Demo.ref; Demo.json])).
  - reflexivity.
  - vm_compute. reflexivity.
Defined.

Lemma json_written_iff_to_json_is_string_witness :
  json_written
    (score_command Demo.world [Demo.src; Demo.mt; Demo.ref; ArgToJson (TJBool true)]).1
  = [].
Proof.
  apply (proj1 (json_written_iff_to_json_is_string Demo.world
                  [Demo.src; Demo.mt; Demo.ref; ArgToJson (TJBool true)]
                  (namespace_of 4 [Demo.src; Demo.mt; Demo.ref; ArgToJson (TJBool true)])
                  (score_command Demo.world
                     [Demo.src; Demo.mt; Demo.ref; ArgToJson (TJBool true)]).1
                  (inr tt) eq_refl ltac:(vm_compute; reflexivity))
               true).
  reflexivity.
Defined.

Lemma assembled_records_witness :
  (exists data,
     read_data Demo.world (namespace_of 4 [Demo.src; Demo.mt; Demo.ref])
     = ([EvOpenRead "src.txt"; EvOpenRead "mt.txt"; EvOpenRead "ref.txt"], inr data)
     /\ forall i,
         data !! i
         = (x ← Demo.src_lines !! i; y ← Demo.mt_lines !! i; z ← Demo.ref_lines !! i;
            Some ({[ "src" := VText (strip x); "mt" := VText (strip y);
                     "ref" := VText (strip z) ]} : gmap string (value Z))))
  /\ ((exists data,
         read_data Demo.world (namespace_of 4 [Demo.src; Demo.mt; Demo.qe])
         = ([EvOpenRead "src.txt"; EvOpenRead "mt.txt"], inr data)
         /\ forall i,
             data !! i
             = (x ← Demo.src_lines !! i; y ← Demo.mt_lines !! i;
                Some ({[ "src" := VText (strip x); "mt" := VText (strip y) ]}
                      : gmap string (value Z))))
      /\ (forall tr r, score_command Demo.world [Demo.src; Demo.mt; Demo.qe] = (tr, r) ->
          files_read tr `prefix_of` ["src.txt"; "mt.txt"])).
Proof.
  split.
  - exact (assembled_records Demo.world [Demo.src; Demo.mt; Demo.ref]
             (namespace_of 4 [Demo.src; Demo.mt; Demo.ref]) []
             (namespace_of 4 [Demo.src; Demo.mt; Demo.ref])
             (mkPath "src.txt") (mkPath "mt.txt") Demo.src_lines Demo.mt_lines
             eq_refl eq_refl eq_refl eq_refl eq_refl eq_refl
             (mkPath "ref.txt") Demo.ref_lines eq_refl eq_refl).
  - exact (assembled_records Demo.world [Demo.src; Demo.mt; Demo.qe]
             (namespace_of 4 [Demo.src; Demo.mt; Demo.qe]) []
             (namespace_of 4 [Demo.src; Demo.mt; Demo.qe])
             (mkPath "src.txt") (mkPath "mt.txt") Demo.src_lines Demo.mt_lines
             eq_refl eq_refl eq_refl eq_refl eq_refl eq_refl).
Defined.

Lemma differing_line_counts_truncate_witness :
  exists td data,
    read_data Demo.world (namespace_of 4 [Demo.src; Demo.mt; Demo.ref]) = (td, inr data)
    /\ length data = 2
    /\ (forall tr res, score_command Demo.world [Demo.src; Demo.mt; Demo.ref] = (tr, res) ->
        predict_calls tr
        = [the_call (namespace_of 4 [Demo.src; Demo.mt; Demo.ref])
             "/models/wmt20-comet-da.ckpt" data])
    /\ (forall p,
          predict Demo.world
            (the_call (namespace_of 4 [Demo.src; Demo.mt; Demo.ref])
               "/models/wmt20-comet-da.ckpt" data) = inr p ->
          shape_ok (namespace_of 4 [Demo.src; Demo.mt; Demo.ref]) p = true ->
          (forall path,
             to_json (namespace_of 4 [Demo.src; Demo.mt; Demo.ref]) = TJStr path ->
             open_write Demo.world path = inr tt) ->
          exists tr, score_command Demo.world [Demo.src; Demo.mt; Demo.ref] = (tr, inr tt)).
Proof.
  exact (differing_line_counts_truncate Demo.world [Demo.src; Demo.mt; Demo.ref]
           (namespace_of 4 [Demo.src; Demo.mt; Demo.ref]) []
           (namespace_of 4 [Demo.src; Demo.mt; Demo.ref])
           Demo.load_trace "/models/wmt20-comet-da.ckpt"
           (mkPath "src.txt") (mkPath "mt.txt") (mkPath "ref.txt")
           Demo.src_lines Demo.mt_lines Demo.ref_lines
           eq_refl eq_refl eq_refl eq_refl eq_refl eq_refl eq_refl
           (fun _ => conj eq_refl eq_refl)).
Defined.

Lemma missing_translations_uncaught_witness :
  score_command Demo.world [Demo.src; Demo.ref]
  = ((EvSeed 12 :: [] ++ Demo.load_trace ++ [EvOpenRead "src.txt"])%list,
     inl (Uncaught (mkExn KException "'NoneType' object is not callable"))).
Proof.
  apply (proj2 (proj2 (missing_translations_uncaught Demo.world [Demo.src; Demo.ref]
                         (namespace_of 4 [Demo.src; Demo.ref]) []
                         (namespace_of 4 [Demo.src; Demo.ref])
                         eq_refl eq_refl eq_refl))
               Demo.load_trace "/models/wmt20-comet-da.ckpt" (mkPath "src.txt")
               Demo.src_lines).
  - reflexivity.
  - reflexivity.
  - reflexivity.
Defined.

Lemma demo_predict_contract : predict_contract Demo.world.
Proof.
  intros c p. simpl. unfold Demo.demo_predict.
  destruct (pc_mc_dropout c); intros [= <-]; simpl;
    by rewrite !length_map, ?length_seq.
Qed.

Lemma json_records_of_successful_run_witness :
  exists td c p out,
    read_data Demo.world (namespace_of 4 [Demo.src2; Demo.mt; Demo.ref2; Demo.json])
    = (td, inr (pc_samples c))
    /\ predict_calls
         (score_command Demo.world [Demo.src2; Demo.mt; Demo.ref2; Demo.json]).1 = [c]
    /\ predict Demo.world c = inr p
    /\ json_written
         (score_command Demo.world [Demo.src2; Demo.mt; Demo.ref2; Demo.json]).1
       = [("out.json", out)]
    /\ length (pc_samples c) = 2 /\ length out = 2
    /\ forall i, i < 2 ->
        exists sample,
          pc_samples c !! i = Some sample
          /\ sample !! "COMET" = None /\ sample !! "variance" = None
          /\ match p with
             | Pred2 scores _ =>
                 mc_truthy (mc_dropout
                              (namespace_of 4 [Demo.src2; Demo.mt; Demo.ref2; Demo.json]))
                 = false
                 /\ exists score,
                     scores !! i = Some score
                     /\ out !! i = Some (<["COMET" := VScore score]> sample)
             | Pred3 means stds _ =>
                 mc_truthy (mc_dropout
                              (namespace_of 4 [Demo.src2; Demo.mt; Demo.ref2; Demo.json]))
                 = true
                 /\ exists mean std,
                     means !! i = Some mean /\ stds !! i = Some std
                     /\ out !! i = Some (<["variance" := VScore std]>
                                           (<["COMET" := VScore mean]> sample))
             end.
Proof.
  apply (json_records_of_successful_run Demo.world
           [Demo.src2; Demo.mt; Demo.ref2; Demo.json]
           (namespace_of 4 [Demo.src2; Demo.mt; Demo.ref2; Demo.json]) []
           (namespace_of 4 [Demo.src2; Demo.mt; Demo.ref2; Demo.json])
           "out.json" (mkPath "src2.txt") (mkPath "mt.txt")
           (take 2 Demo.src_lines) Demo.mt_lines 2).
  - exact demo_predict_contract.
  - reflexivity.
  - reflexivity.
  - reflexivity.
  - reflexivity.
  - reflexivity.
  - reflexivity.
  - reflexivity.
  - reflexivity.
  - reflexivity.
  - intros _. exists (mkPath "ref2.txt"), (take 2 Demo.ref_lines).
    split; [reflexivity | split; reflexivity].
  - vm_compute. reflexivity.
Defined.

(** C2 as it was stated, without asking for [--sources]: on the empty
    command line the usage error is the one about the missing source, and it
    does not name the model. *)
Lemma missing_references_message_counterexample :
  ~ (forall (w : World Z) args cfg,
       parse_args w args = ret cfg ->
       references cfg = None ->
       sacrebleu_dataset cfg = None ->
       str_in "comet-qe" (model cfg) = false ->
       exists tr msg,
         score_command w args = (tr, inl (UsageError msg))
         /\ str_in (model cfg) msg = true
         /\ existsb is_model_event tr = false).
Proof.
  intros H.
  destruct (H Demo.world [] (namespace_of 4 []) eq_refl eq_refl eq_refl eq_refl)
    as (tr & msg & Hrun & Hname & _).
  vm_compute in Hrun. injection Hrun as <- <-.
  vm_compute in Hname. discriminate Hname.
Qed.

(** C10 as it was stated, for every command line with sources and without
    translations: when the references are missing too, the run stops with
    the usage error about the references, not with an uncaught exception,
    and before any model is loaded. *)
Lemma missing_translations_counterexample :
  ~ (forall (w : World Z) args cfg,
       parse_args w args = ret cfg ->
       sources cfg <> None \/ sacrebleu_dataset cfg <> None ->
       translations cfg = None ->
       exists tr ex,
         score_command w args = (tr, inl (Uncaught ex))
         /\ existsb is_model_event tr = true).
Proof.
  intros H.
  assert (sources (namespace_of 4 [Demo.src]) <> None
          \/ sacrebleu_dataset (namespace_of 4 [Demo.src]) <> None) as Hs
    by (left; discriminate).
  destruct (H Demo.world [Demo.src] (namespace_of 4 [Demo.src]) eq_refl Hs eq_refl)
    as (tr & ex & Hrun & _).
  vm_compute in Hrun. discriminate Hrun.
Qed.

(** ** Further properties of the script *)

Section MoreProperties.

Context {Score : Type}.

Local Abbreviation record := (gmap string (value Score)).
Local Abbreviation M := (M Score).
Local Abbreviation World := (World Score).
Local Abbreviation event := (event Score).

Implicit Types (w : World) (cfg : Cfg) (tr : list event) (e : event).

(** *** How a run can stop *)

Lemma read_data_abort w cfg t a :
  read_data w cfg = (t, inl a) -> exists ex, a = Uncaught ex.
Proof.
  unfold read_data, read_stripped, call_path. unfold_M. intros H.
  repeat (case_match; simplify_eq/=); eauto.
Qed.

Lemma predict_and_save_abort w cfg mp data t a :
  predict_and_save w cfg mp data = (t, inl a) ->
  (exists ex, a = Uncaught ex) /\ json_written t = [].
Proof.
  intros (t1 & r1 & H1 & H)%predict_and_save_stages.
  destruct (predict_and_report_trace _ _ _ _ _ _ H1) as (lines & ->).
  destruct (stdout_lines (Score := Score) lines) as (_ & _ & Js & _).
  destruct r1 as [a'|x].
  - destruct H as [-> [= <-]]. split.
    + revert H1. unfold predict_and_report. unfold_M.
      intros H1. repeat (case_match; simplify_eq/=); eauto;
        match goal with
        | H : segment_loop _ _ _ = _ |- _ => by rewrite segment_loop_run in H
        | H : segment_loop_mc _ _ _ = _ |- _ => by rewrite segment_loop_mc_run in H
        end.
    + change (EvPredict ?c :: ?l) with ([EvPredict c] ++ l)%list.
      by rewrite json_written_app, Js.
  - destruct H as (t2 & H2 & ->). revert H2. unfold report_system. unfold_M.
    intros H2. repeat (case_match; simplify_eq/=). split; [eauto|].
    change (EvPredict ?c :: ?l) with ([EvPredict c] ++ l)%list.
    by rewrite !json_written_app, Js.
Qed.

(** A run stops early either in the validation, or with an exception that
    nobody catches. *)
Lemma score_cfg_abort w cfg tr a :
  score_cfg w cfg = (tr, inl a) ->
  (exists tv, validate w cfg = (tv, inl a) /\ tr = EvSeed (seed_everything cfg) :: tv)
  \/ (exists ex, a = Uncaught ex).
Proof.
  intros (tv & rv & Hv & H)%score_cfg_stages.
  destruct rv as [a'|cfg']; [destruct H as [-> [= <-]]; eauto|].
  destruct H as (tl & [a'|mp] & Hl & H).
  { destruct H as [_ [= <-]]. right. by eapply load_model_abort. }
  destruct H as (td & [a'|data] & Hd & H).
  { destruct H as [_ [= <-]]. right. by eapply read_data_abort. }
  destruct H as (tp & Hp & _). right. by eapply predict_and_save_abort.
Qed.

(** *** The first checks *)

(** X1. Lines 110-111: without [--sources] and without [--sacrebleu_dataset] the
    command stops, right after the seeding, with the usage error that asks
    for one of them, whatever the other options are. *)
Theorem source_or_dataset_required w args cfg :
  parse_args w args = ret cfg ->
  sources cfg = None ->
  sacrebleu_dataset cfg = None ->
  score_command w args
  = ([EvSeed (seed_everything cfg)],
     inl (UsageError "You must specify a source (-s) or a sacrebleu dataset (-d)")).
Proof.
  intros Hp Hs Hd. rewrite (score_command_parsed _ _ _ Hp).
  apply score_cfg_validate_abort. unfold validate. rewrite Hs, Hd. by unfold_M.
Qed.

Lemma sacrebleu_events_no_load tr :
  forallb is_sacrebleu_event tr = true -> existsb is_load_event tr = false.
Proof.
  induction tr as [|e tr IH]; [done|]. simpl.
  intros [He Htr]%andb_prop. rewrite (IH Htr). by destruct e.
Qed.

(** X2. Lines 110-131 come before everything else: a run that ends with a usage
    error or with [sys.exit] has loaded no model, opened no file, predicted
    nothing, printed nothing on standard output and written no JSON file. *)
Theorem nothing_done_before_validation_passes w args cfg tr a :
  parse_args w args = ret cfg ->
  score_command w args = (tr, inl a) ->
  (forall ex, a <> Uncaught ex) ->
  existsb is_load_event tr = false
  /\ files_read tr = [] /\ predict_calls tr = []
  /\ stdout tr = [] /\ json_written tr = [].
Proof.
  intros Hp H Ha. rewrite (score_command_parsed _ _ _ Hp) in H.
  apply score_cfg_abort in H as [(tv & Hv & ->) | (ex & ->)]; [|exfalso; by apply (Ha ex)].
  pose proof (validate_trace _ _ _ _ Hv) as Htv.
  destruct (sacrebleu_events_quiet _ Htv) as (? & ? & ? & ? & _).
  pose proof (sacrebleu_events_no_load _ Htv).
  unfold files_read, predict_calls, stdout, json_written in *. by split_and!.
Qed.

(** A run that does not reach its end after the validation has passed ends
    with an uncaught exception. *)
Lemma score_cfg_after_validation w cfg tv cfg' tr r :
  validate w cfg = (tv, inr cfg') ->
  score_cfg w cfg = (tr, r) ->
  r = inr tt \/ exists ex, r = inl (Uncaught ex).
Proof.
  intros Hv H. destruct r as [a|[]]; [|by left]. right.
  apply score_cfg_abort in H as [(tv' & Hv' & _) | [ex ->]]; [|by eauto].
  rewrite Hv in Hv'. done.
Qed.

(** *** The sacrebleu test set *)

Lemma append_cons c (a b : string) : String c a ++ b = String c (a ++ b).
Proof. reflexivity. Qed.

Lemma rsplit_last_colon_app a b :
  has_colon b = false -> rsplit_last_colon (a ++ ":" ++ b) = Some (a, b).
Proof.
  intros Hb. induction a as [|c a IH].
  - change ("" ++ ":" ++ b) with (String ":" b). simpl.
    by rewrite (rsplit_last_colon_None _ Hb).
  - rewrite append_cons. simpl. by rewrite IH.
Qed.

Lemma resolve_sacrebleu_first_call w cfg d ts lp :
  rsplit_colon d = [ts; lp] ->
  exists t r, resolve_sacrebleu w cfg d = (EvGetSourceFile ts lp :: t, r).
Proof.
  intros Hd. unfold resolve_sacrebleu, getitem0. rewrite Hd. unfold_M. simpl.
  repeat (case_match; simplify_eq/=); eauto.
Qed.

(** X3. Line 118: the value of [--sacrebleu_dataset] is split at its last colon.
    The test set may itself hold colons; the language pair is what follows
    the last one, and sacrebleu is first asked for the source file of that
    pair. *)
Theorem sacrebleu_split_at_last_colon w args cfg ts lp :
  parse_args w args = ret cfg ->
  sacrebleu_dataset cfg = Some (ts ++ ":" ++ lp) ->
  has_colon lp = false ->
  sources cfg = None -> references cfg = None ->
  rsplit_colon (ts ++ ":" ++ lp) = [ts; lp]
  /\ exists tr r,
      score_command w args
      = (EvSeed (seed_everything cfg) :: EvGetSourceFile ts lp :: tr, r).
Proof.
  intros Hp Hd Hlp Hs Hr.
  assert (rsplit_colon (ts ++ ":" ++ lp) = [ts; lp]) as Hsplit.
  { unfold rsplit_colon. by rewrite (rsplit_last_colon_app _ _ Hlp). }
  split; [done|]. rewrite (score_command_parsed _ _ _ Hp).
  destruct (resolve_sacrebleu_first_call w cfg _ _ _ Hsplit) as (t & r & Hres).
  assert (exists tv rv, validate w cfg = (EvGetSourceFile ts lp :: tv, rv)) as (tv & rv & Hv).
  { unfold validate. rewrite Hd, Hs, Hr, Hres. unfold_M. simpl.
    repeat (case_match; simplify_eq/=); eauto. }
  destruct (score_cfg w cfg) as [tr res] eqn:Hrun.
  pose proof Hrun as (tv' & rv' & Hv' & H)%score_cfg_stages.
  rewrite Hv in Hv'. simplify_eq.
  destruct rv' as [a|cfg']; [destruct H as [-> _]; eauto|].
  destruct H as (tl & [a|mp] & _ & H); [destruct H as [-> _]; eauto|].
  destruct H as (td & [a|data] & _ & H); [destruct H as [-> _]; eauto|].
  destruct H as (tp & _ & ->). eauto.
Qed.

(** X4. Lines 117-120 and 128: when sacrebleu knows the test set, the sources
    become its source file and the references the first of its reference
    files, every other option stays, and the validation passes whatever the
    model is: the run cannot end with a usage error any more. *)
Theorem sacrebleu_resolution_sets_paths w args cfg d ts lp f p f0 fs p0 :
  parse_args w args = ret cfg ->
  sources cfg = None -> references cfg = None ->
  sacrebleu_dataset cfg = Some d ->
  rsplit_colon d = [ts; lp] ->
  get_source_file w ts lp = inr f -> Path_fr w f = inr p ->
  get_reference_files w ts lp = inr (f0 :: fs) -> Path_fr w f0 = inr p0 ->
  validate w cfg
  = ([EvGetSourceFile ts lp; EvGetReferenceFiles ts lp],
     inr (set_references p0 (set_sources p cfg)))
  /\ forall tr r, score_command w args = (tr, r) ->
       r = inr tt \/ exists ex, r = inl (Uncaught ex).
Proof.
  intros Hp Hs Hr Hd Hsplit Hf Hpf Hfs Hp0.
  assert (validate w cfg
          = ([EvGetSourceFile ts lp; EvGetReferenceFiles ts lp],
             inr (set_references p0 (set_sources p cfg)))) as Hv.
  { unfold validate, resolve_sacrebleu, getitem0.
    rewrite Hd, Hs, Hr, Hsplit. unfold_M. simpl. rewrite Hf. simpl.
    rewrite Hpf. simpl. rewrite Hfs. simpl. rewrite Hp0. by simpl. }
  split; [done|]. intros tr r H. rewrite (score_command_parsed _ _ _ Hp) in H.
  by eapply score_cfg_after_validation.
Qed.

(** X5. Lines 121-126: an exception of sacrebleu is reported according to its
    class.  A [ValueError] gives the usage error about the format, even for
    a value of the right format; any other [Exception] is printed on
    standard error and the command exits with status 1; anything else
    propagates. *)
Theorem sacrebleu_exception_reported w args cfg d ts lp ex :
  parse_args w args = ret cfg ->
  sources cfg = None -> references cfg = None ->
  sacrebleu_dataset cfg = Some d ->
  rsplit_colon d = [ts; lp] ->
  get_source_file w ts lp = inl ex ->
  score_command w args
  = match exn_kind_of ex with
    | KValueError =>
        ([EvSeed (seed_everything cfg); EvGetSourceFile ts lp],
         inl (UsageError
                "SacreBLEU testset format must be TESTSET:LANGPAIR, e.g., wmt20:de-en"))
    | KException =>
        ([EvSeed (seed_everything cfg); EvGetSourceFile ts lp;
          EvStderr ("SacreBLEU error: " ++ exn_str ex)],
         inl (SysExit 1))
    | KBaseException =>
        ([EvSeed (seed_everything cfg); EvGetSourceFile ts lp], inl (Uncaught ex))
    end.
Proof.
  intros Hp Hs Hr Hd Hsplit Hf. rewrite (score_command_parsed _ _ _ Hp).
  assert (forall t a, validate w cfg = (t, inl a) ->
            score_cfg w cfg = (EvSeed (seed_everything cfg) :: t, inl a)) as Hab
    by (intros; by apply score_cfg_validate_abort).
  destruct (exn_kind_of ex) eqn:Hk; apply Hab;
    unfold validate, resolve_sacrebleu; rewrite Hd, Hs, Hr, Hsplit; unfold_M; simpl;
    rewrite Hf; simpl; by rewrite Hk.
Qed.

(** X6. Line 120: when sacrebleu has no reference file for the test set, taking
    the first one fails; this too is printed on standard error, as
    "list index out of range", and the command exits with status 1. *)
Theorem sacrebleu_without_reference_file w args cfg d ts lp f p :
  parse_args w args = ret cfg ->
  sources cfg = None -> references cfg = None ->
  sacrebleu_dataset cfg = Some d ->
  rsplit_colon d = [ts; lp] ->
  get_source_file w ts lp = inr f -> Path_fr w f = inr p ->
  get_reference_files w ts lp = inr [] ->
  score_command w args
  = ([EvSeed (seed_everything cfg); EvGetSourceFile ts lp; EvGetReferenceFiles ts lp;
      EvStderr "SacreBLEU error: list index out of range"],
     inl (SysExit 1)).
Proof.
  intros Hp Hs Hr Hd Hsplit Hf Hpf Hfs. rewrite (score_command_parsed _ _ _ Hp).
  apply score_cfg_validate_abort.
  unfold validate, resolve_sacrebleu, getitem0.
  rewrite Hd, Hs, Hr, Hsplit. unfold_M. simpl. rewrite Hf. simpl.
  rewrite Hpf. simpl. rewrite Hfs. by simpl.
Qed.

(** X7. Lines 128-131: a model whose name contains "comet-qe" needs no
    references: with [--sources] alone the validation passes, changes
    nothing and asks sacrebleu nothing. *)
Theorem refless_model_needs_no_references w args cfg :
  parse_args w args = ret cfg ->
  sources cfg <> None ->
  references cfg = None ->
  sacrebleu_dataset cfg = None ->
  str_in "comet-qe" (model cfg) = true ->
  validate w cfg = ([], inr cfg)
  /\ forall tr r, score_command w args = (tr, r) ->
       r = inr tt \/ exists ex, r = inl (Uncaught ex).
Proof.
  intros Hp Hs Hr Hd Hq.
  assert (validate w cfg = ([], inr cfg)) as Hv.
  { unfold validate. rewrite Hd. unfold_M.
    rewrite (bool_decide_eq_false_2 _ Hs). simpl.
    rewrite Hr. unfold any_refless. simpl. by rewrite Hq. }
  split; [done|]. intros tr r H. rewrite (score_command_parsed _ _ _ Hp) in H.
  by eapply score_cfg_after_validation.
Qed.

(** *** The stages of a run, in order *)

Lemma sacrebleu_events_stage tr :
  forallb is_sacrebleu_event tr = true -> Forall (fun e => stage e = 1) tr.
Proof.
  induction tr as [|e tr IH]; [by constructor|]. simpl.
  intros [He Htr]%andb_prop. constructor; [|by apply IH]. by destruct e.
Qed.

Lemma load_events_stage tr :
  forallb is_load_event tr = true -> Forall (fun e => stage e = 2) tr.
Proof.
  induction tr as [|e tr IH]; [by constructor|]. simpl.
  intros [He Htr]%andb_prop. constructor; [|by apply IH]. by destruct e.
Qed.

Lemma read_data_stage w cfg t r :
  read_data w cfg = (t, r) -> Forall (fun e => stage e = 3) t.
Proof.
  unfold read_data, read_stripped, call_path. unfold_M. intros H.
  repeat (case_match; simplify_eq/=); by repeat constructor.
Qed.

Lemma stdout_events_stage (lines : list string) :
  Forall (fun e => stage e = 5) (EvStdout <$> lines : list event).
Proof. induction lines; by constructor. Qed.

Lemma predict_and_save_shape w cfg mp data tp r :
  predict_and_save w cfg mp data = (tp, r) ->
  exists rest,
    tp = EvPredict (the_call cfg mp data) :: rest
    /\ Forall (fun e => stage e = 5) rest.
Proof.
  intros (t1 & r1 & H1 & H)%predict_and_save_stages.
  destruct (predict_and_report_trace _ _ _ _ _ _ H1) as (lines & ->).
  pose proof (stdout_events_stage lines) as Hl.
  destruct r1 as [a|x].
  - destruct H as [-> _]. eauto.
  - destruct H as (t2 & H2 & ->). eexists. split; [done|].
    apply Forall_app. split; [done|].
    revert H2. unfold report_system. unfold_M. intros H2.
    repeat (case_match; simplify_eq/=); by repeat constructor.
Qed.

(** A run, whatever its outcome, is the seeding, then what the validation
    did, then the loading of the model, then the reading of the files, then
    the prediction and the output. *)
Lemma score_cfg_decompose w cfg tr r :
  score_cfg w cfg = (tr, r) ->
  exists tv tl td tp,
    tr = (EvSeed (seed_everything cfg) :: tv ++ tl ++ td ++ tp)%list
    /\ Forall (fun e => stage e = 1) tv
    /\ Forall (fun e => stage e = 2) tl
    /\ Forall (fun e => stage e = 3) td
    /\ (tl = [] \/ exists cfg' rl, validate w cfg = (tv, inr cfg')
                                   /\ load_model w cfg' = (tl, rl))
    /\ (tp = []
        \/ exists cfg' mp data rest,
             validate w cfg = (tv, inr cfg')
             /\ load_model w cfg' = (tl, inr mp)
             /\ read_data w cfg' = (td, inr data)
             /\ tp = EvPredict (the_call cfg' mp data) :: rest
             /\ Forall (fun e => stage e = 5) rest).
Proof.
  intros (tv & rv & Hv & H)%score_cfg_stages.
  pose proof (sacrebleu_events_stage _ (validate_trace _ _ _ _ Hv)) as Sv.
  destruct rv as [a|cfg'].
  { destruct H as [-> _]. exists tv, [], [], []. rewrite !app_nil_r.
    split_and!; try done; by left. }
  destruct H as (tl & rl & Hl & H).
  pose proof (load_events_stage _ (load_model_trace _ _ _ _ Hl)) as Sl.
  destruct rl as [a|mp].
  { destruct H as [-> _]. exists tv, tl, [], []. rewrite !app_nil_r.
    split_and!; try done; [right; eauto | by left]. }
  destruct H as (td & rd & Hd & H).
  pose proof (read_data_stage _ _ _ _ Hd) as Sd.
  destruct rd as [a|data].
  { destruct H as [-> _]. exists tv, tl, td, []. rewrite !app_nil_r.
    split_and!; try done; [right; eauto | by left]. }
  destruct H as (tp & Hp & ->).
  destruct (predict_and_save_shape _ _ _ _ _ _ Hp) as (rest & -> & Sr).
  exists tv, tl, td, (EvPredict (the_call cfg' mp data) :: rest).
  split_and!; try done; right; eauto 10.
Qed.

Lemma in_stage_order_const k tr :
  Forall (fun e => stage e = k) tr -> in_stage_order tr.
Proof.
  intros H i j e1 e2 _ H1 H2. rewrite Forall_lookup in H.
  by rewrite (H _ _ H1), (H _ _ H2).
Qed.

Lemma in_stage_order_app k tr1 tr2 :
  in_stage_order tr1 -> in_stage_order tr2 ->
  Forall (fun e => stage e <= k) tr1 -> Forall (fun e => k <= stage e) tr2 ->
  in_stage_order (tr1 ++ tr2).
Proof.
  intros O1 O2 B1 B2 i j e1 e2 Hij.
  rewrite Forall_lookup in B1, B2.
  intros [H1 | [Hi H1]]%lookup_app_Some [H2 | [Hj H2]]%lookup_app_Some.
  - by eapply O1.
  - specialize (B1 _ _ H1). specialize (B2 _ _ H2). simpl in *. lia.
  - apply lookup_lt_Some in H2. lia.
  - eapply (O2 (i - length tr1) (j - length tr1)); [lia|done..].
Qed.

(** X8. The whole script in one line: in every run, whatever its outcome, the
    seeding comes first, then the sacrebleu look-up, then the loading of the
    model, then the reading of the input files, then the prediction, then the
    output; no event of an earlier stage comes after one of a later stage. *)
Theorem run_in_stage_order w args cfg tr r :
  parse_args w args = ret cfg ->
  score_command w args = (tr, r) ->
  head tr = Some (EvSeed (seed_everything cfg)) /\ in_stage_order tr.
Proof.
  intros Hp H. rewrite (score_command_parsed _ _ _ Hp) in H.
  apply score_cfg_decompose in H as (tv & tl & td & tp & -> & Sv & Sl & Sd & _ & Hp').
  split; [done|].
  assert (in_stage_order tp /\ Forall (fun e => 4 <= stage e) tp) as [Op Bp].
  { destruct Hp' as [-> | (cfg' & mp & data & rest & _ & _ & _ & -> & Sr)].
    - split; [|by constructor]. by intros i j e1 e2 _ [=].
    - split.
      + apply (in_stage_order_app 4 [_] rest).
        * by apply (in_stage_order_const 4); repeat constructor.
        * by apply (in_stage_order_const 5).
        * by repeat constructor.
        * eapply Forall_impl; [done|]. simpl. lia.
      + constructor; [done|]. eapply Forall_impl; [done|]. simpl. lia. }
  apply (in_stage_order_app 0 [_]).
  { by apply (in_stage_order_const 0); repeat constructor. }
  2: by repeat constructor.
  2: { rewrite !Forall_app. split_and!; (eapply Forall_impl; [done|]); simpl; lia. }
  apply (in_stage_order_app 1); [by apply (in_stage_order_const 1) | |
    eapply Forall_impl; [done|]; simpl; lia |
    rewrite !Forall_app; split_and!; (eapply Forall_impl; [done|]); simpl; lia].
  apply (in_stage_order_app 2); [by apply (in_stage_order_const 2) | |
    eapply Forall_impl; [done|]; simpl; lia |
    rewrite !Forall_app; split_and!; (eapply Forall_impl; [done|]); simpl; lia].
  apply (in_stage_order_app 3); [by apply (in_stage_order_const 3) | done |
    eapply Forall_impl; [done|]; simpl; lia |
    eapply Forall_impl; [done|]; simpl; lia].
Qed.

(** *** The model *)

Lemma load_model_events w cfg t r :
  load_model w cfg = (t, r) ->
  (forall name dir, EvDownloadModel name dir ∈ t ->
     name = model cfg /\ dir = model_storage_path cfg
     /\ existsb (String.eqb name) (available_metrics w) = true)
  /\ (forall path, EvLoadCheckpoint path ∈ t ->
       if existsb (String.eqb (model cfg)) (available_metrics w)
       then download_model w (model cfg) (model_storage_path cfg) = inr path
       else path = model cfg)
  /\ (EvSetEmbeddingCache ∈ t -> disable_cache cfg = false)
  /\ (forall mp, r = inr mp -> disable_cache cfg = false -> EvSetEmbeddingCache ∈ t).
Proof.
  unfold load_model. unfold_M. intros H.
  destruct (existsb (String.eqb (model cfg)) (available_metrics w)) eqn:Hk;
    [destruct (download_model w (model cfg) (model_storage_path cfg)) as [ex|mp]|];
    simpl in *;
    try (destruct (load_from_checkpoint w _) as [ex'|[]]; simpl in * );
    destruct (disable_cache cfg); simpl in *; simplify_eq;
    (split_and!;
     [ intros name dir; rewrite ?elem_of_cons, ?elem_of_nil
     | intros path; rewrite ?elem_of_cons, ?elem_of_nil
     | rewrite ?elem_of_cons, ?elem_of_nil
     | intros mp' ? ?; rewrite ?elem_of_cons, ?elem_of_nil ]);
    intuition (try discriminate; try congruence; auto).
Qed.

Lemma stage_elem_of (k : nat) tr e :
  Forall (fun e => stage e = k) tr -> e ∈ tr -> stage e = k.
Proof. rewrite Forall_forall. eauto. Qed.

Lemma stage_predict_calls (k : nat) tr :
  k <> 4 -> Forall (fun e => stage e = k) tr -> predict_calls tr = [].
Proof.
  intros Hk. unfold predict_calls. induction 1 as [|e tr He _ IH]; [done|].
  destruct e; simpl in *; try done; lia.
Qed.

(** X9. Lines 133-142: a model is downloaded only under the name given as
    [--model], into [--model_storage_path], and only when it is one of the
    available metrics; the checkpoint loaded is the downloaded one, or else
    the value of [--model] itself, taken as a path.  The embedding cache is
    only ever set without [--disable_cache], and it has been set by the time
    of the prediction. *)
Theorem model_resolution w args cfg tr r :
  parse_args w args = ret cfg ->
  score_command w args = (tr, r) ->
  (forall name dir, EvDownloadModel name dir ∈ tr ->
     name = model cfg /\ dir = model_storage_path cfg
     /\ existsb (String.eqb name) (available_metrics w) = true)
  /\ (forall path, EvLoadCheckpoint path ∈ tr ->
       if existsb (String.eqb (model cfg)) (available_metrics w)
       then download_model w (model cfg) (model_storage_path cfg) = inr path
       else path = model cfg)
  /\ (EvSetEmbeddingCache ∈ tr -> disable_cache cfg = false)
  /\ (predict_calls tr <> [] -> disable_cache cfg = false -> EvSetEmbeddingCache ∈ tr).
Proof.
  intros Hp H. rewrite (score_command_parsed _ _ _ Hp) in H.
  apply score_cfg_decompose in H as (tv & tl & td & tp & -> & Sv & Sl & Sd & Hl & Hp').
  assert (forall e, stage e = 2 ->
            e ∈ (EvSeed (seed_everything cfg) :: tv ++ tl ++ td ++ tp)%list -> e ∈ tl)
    as Hin.
  { intros e He. rewrite elem_of_cons, !elem_of_app.
    intros [-> | [Hv | [Hl' | [Hd | Hp'']]]]; try done.
    - by rewrite (stage_elem_of _ _ _ Sv Hv) in He.
    - by rewrite (stage_elem_of _ _ _ Sd Hd) in He.
    - destruct Hp' as [-> | (? & ? & ? & rest & _ & _ & _ & -> & Sr)].
      + by apply elem_of_nil in Hp''.
      + apply elem_of_cons in Hp'' as [-> | Hr]; [done|].
        by rewrite (stage_elem_of _ _ _ Sr Hr) in He. }
  assert (tl = [] \/ exists cfg' rl, same_options cfg cfg' /\ load_model w cfg' = (tl, rl))
    as Hl'.
  { destruct Hl as [-> | (cfg' & rl & Hv & Hl)]; [by left|]. right.
    destruct (validate_ok _ _ _ _ Hv) as (Hsame & _). eauto. }
  split_and!.
  - intros name dir Hd%Hin; [|done].
    destruct Hl' as [-> | (cfg' & rl & Hsame & Hload)]; [by apply elem_of_nil in Hd|].
    destruct Hsame as (_&_&_&_&_&Hm&Hsp&_).
    destruct (load_model_events _ _ _ _ Hload) as (H1 & _).
    rewrite <- Hm, <- Hsp. by apply H1.
  - intros path Hd%Hin; [|done].
    destruct Hl' as [-> | (cfg' & rl & Hsame & Hload)]; [by apply elem_of_nil in Hd|].
    destruct Hsame as (_&_&_&_&_&Hm&Hsp&_).
    destruct (load_model_events _ _ _ _ Hload) as (_ & H2 & _).
    rewrite <- Hm, <- Hsp. by apply H2.
  - intros Hd%Hin; [|done].
    destruct Hl' as [-> | (cfg' & rl & Hsame & Hload)]; [by apply elem_of_nil in Hd|].
    destruct Hsame as (_&_&_&_&_&_&_&_&_&_&Hc&_).
    destruct (load_model_events _ _ _ _ Hload) as (_ & _ & H3 & _).
    rewrite <- Hc. by apply H3.
  - intros Hcalls Hc.
    destruct Hp' as [-> | (cfg' & mp & data & rest & Hv & Hload & _ & -> & Sr)].
    + exfalso. apply Hcalls.
      change (EvSeed ?x :: ?t) with ([EvSeed (Score := Score) x] ++ t)%list.
      rewrite !predict_calls_app, (stage_predict_calls 1 tv), (stage_predict_calls 2 tl),
        (stage_predict_calls 3 td); done.
    + destruct (validate_ok _ _ _ _ Hv) as ((_&_&_&_&_&_&_&_&_&_&Hdc&_) & _).
      destruct (load_model_events _ _ _ _ Hload) as (_ & _ & _ & H4).
      rewrite elem_of_cons, !elem_of_app. right. right. left.
      apply (H4 mp eq_refl). by rewrite Hdc.
Qed.

(** *** The prediction *)

(** X10. Lines 158-172: a run calls [predict] at most once, on the records read
    from the input files, with the batch size, GPU count and worker count of
    the command line; [length_batching] is the value of
    [--disable_length_batching] as it is, and [--mc_dropout] is passed on
    exactly when it is true (not [False], not 0). *)
Theorem predict_gets_the_options w args cfg tr r :
  parse_args w args = ret cfg ->
  score_command w args = (tr, r) ->
  length (predict_calls tr) <= 1
  /\ forall c, c ∈ predict_calls tr ->
       pc_batch_size c = batch_size cfg /\ pc_gpus c = gpus cfg
       /\ pc_num_workers c = num_workers cfg
       /\ pc_length_batching c = disable_length_batching cfg
       /\ pc_mc_dropout c
          = (if mc_truthy (mc_dropout cfg) then Some (mc_dropout cfg) else None)
       /\ exists tv cfg' td,
            validate w cfg = (tv, inr cfg')
            /\ read_data w cfg' = (td, inr (pc_samples c)).
Proof.
  intros Hp H. rewrite (score_command_parsed _ _ _ Hp) in H.
  apply score_cfg_decompose in H as (tv & tl & td & tp & -> & Sv & Sl & Sd & _ & Hp').
  change (EvSeed ?x :: ?t) with ([EvSeed (Score := Score) x] ++ t)%list.
  rewrite !predict_calls_app, (stage_predict_calls 1 tv), (stage_predict_calls 2 tl),
    (stage_predict_calls 3 td) by done. simpl.
  destruct Hp' as [-> | (cfg' & mp & data & rest & Hv & _ & Hd & -> & Sr)].
  { split; [simpl; lia|]. by intros c Hc%elem_of_nil. }
  change (EvPredict ?c :: ?t) with ([EvPredict c] ++ t)%list.
  rewrite predict_calls_app, (stage_predict_calls 5 rest) by done. simpl.
  split; [lia|]. intros c ->%list_elem_of_singleton.
  destruct (validate_ok _ _ _ _ Hv) as ((_&_&Hb&Hg&_&_&_&Hmc&_&Hn&_&Hlb) & _).
  unfold the_call. simpl. rewrite Hb, Hg, Hn, Hlb, Hmc. split_and!; try done. eauto.
Qed.

(** X11. Lines 159 and 169: when the prediction does not unpack into the names of
    the branch taken (a pair where [--mc_dropout] asks for means and
    variances, or the other way round), the run stops with an uncaught
    [ValueError] right after the [predict] call: no score is printed. *)
Theorem prediction_of_wrong_shape w args cfg tv cfg' tl mp td data p :
  parse_args w args = ret cfg ->
  validate w cfg = (tv, inr cfg') ->
  load_model w cfg' = (tl, inr mp) ->
  read_data w cfg' = (td, inr data) ->
  predict w (the_call cfg' mp data) = inr p ->
  shape_ok cfg' p = false ->
  exists msg,
    score_command w args
    = ((EvSeed (seed_everything cfg)
          :: tv ++ tl ++ td ++ [EvPredict (the_call cfg' mp data)])%list,
       inl (Uncaught (mkExn KValueError msg))).
Proof.
  intros Hp Hv Hl Hd Hpr Hs. rewrite (score_command_parsed _ _ _ Hp).
  rewrite (score_cfg_after_read _ _ _ _ _ _ _ _ Hv Hl Hd).
  unfold predict_and_save, predict_and_report, the_call, shape_ok in *.
  destruct (mc_truthy (mc_dropout cfg')); rewrite Hpr; unfold_M;
    destruct p; try discriminate Hs; simpl; eauto.
Qed.

(** X12. Lines 159 and 169: an exception of [predict] is not caught.  The run
    ends with it, after the model was loaded and the files were read, and
    nothing has been printed or written. *)
Theorem prediction_failure_uncaught w args cfg tv cfg' tl mp td data ex :
  parse_args w args = ret cfg ->
  validate w cfg = (tv, inr cfg') ->
  load_model w cfg' = (tl, inr mp) ->
  read_data w cfg' = (td, inr data) ->
  predict w (the_call cfg' mp data) = inl ex ->
  score_command w args
  = ((EvSeed (seed_everything cfg)
        :: tv ++ tl ++ td ++ [EvPredict (the_call cfg' mp data)])%list,
     inl (Uncaught ex))
  /\ stdout (score_command w args).1 = []
  /\ json_written (score_command w args).1 = [].
Proof.
  intros Hp Hv Hl Hd Hpr. rewrite (score_command_parsed _ _ _ Hp).
  assert (score_cfg w cfg
          = ((EvSeed (seed_everything cfg)
                :: tv ++ tl ++ td ++ [EvPredict (the_call cfg' mp data)])%list,
             inl (Uncaught ex))) as ->.
  { rewrite (score_cfg_after_read _ _ _ _ _ _ _ _ Hv Hl Hd).
    unfold predict_and_save, predict_and_report, the_call in *.
    destruct (mc_truthy (mc_dropout cfg')); rewrite Hpr; by unfold_M. }
  destruct (sacrebleu_events_quiet _ (validate_trace _ _ _ _ Hv)) as (Ov & _ & Jv & _).
  destruct (load_events_quiet _ (load_model_trace _ _ _ _ Hl)) as (Ol & _ & Jl & _).
  destruct (read_data_trace _ _ _ _ Hd) as (Od & Jd & _).
  simpl. change (EvSeed ?x :: ?t) with ([EvSeed (Score := Score) x] ++ t)%list.
  rewrite !stdout_app, !json_written_app, Ov, Ol, Od, Jv, Jl, Jd. done.
Qed.

(** X13. Lines 177-181: when the JSON file cannot be opened for writing, the run
    ends with the exception of [open], uncaught, after every segment line
    and the system score have been printed; no JSON is written and the
    notice about the saved predictions is not printed. *)
Theorem json_open_failure w args cfg tv cfg' tl mp td data p path ex :
  parse_args w args = ret cfg ->
  validate w cfg = (tv, inr cfg') ->
  load_model w cfg' = (tl, inr mp) ->
  read_data w cfg' = (td, inr data) ->
  predict w (the_call cfg' mp data) = inr p ->
  shape_ok cfg' p = true ->
  to_json cfg = TJStr path ->
  open_write w path = inl ex ->
  score_command w args
  = ((EvSeed (seed_everything cfg)
        :: tv ++ tl ++ td
        ++ EvPredict (the_call cfg' mp data)
           :: (EvStdout <$> segment_lines w p (length data))
           ++ [EvStdout (system_line w (sys_score_of p))])%list,
     inl (Uncaught ex)).
Proof.
  intros Hp Hv Hl Hd Hpr Hs Hj Hw. rewrite (score_command_parsed _ _ _ Hp).
  rewrite (score_cfg_after_read _ _ _ _ _ _ _ _ Hv Hl Hd).
  destruct (validate_ok _ _ _ _ Hv) as ((_&_&_&_&Hj'&_) & _).
  destruct (predict_and_report_ok _ _ _ _ _ Hpr Hs) as (out & H1 & _).
  unfold predict_and_save. rewrite (bind_ok _ _ _ _ H1). simpl.
  unfold report_system. rewrite Hj', Hj. unfold_M. rewrite Hw. done.
Qed.

(** *** The input files *)

(** X14. Lines 144-155: once the validation has passed and [--translations] was
    given, the only thing that can go wrong while the input is read is that
    a file cannot be opened or read: the run then ends with that exception,
    and the file is the last one it tried.  In particular [cfg.references]
    is never called when it is [None]. *)
Theorem reading_fails_only_on_open w cfg tv cfg' td a :
  validate w cfg = (tv, inr cfg') ->
  translations cfg <> None ->
  read_data w cfg' = (td, inl a) ->
  exists path ex,
    last (files_read td) = Some path
    /\ open_readlines w path = inl ex
    /\ a = Uncaught ex.
Proof.
  intros Hv Ht.
  destruct (validate_ok _ _ _ _ Hv) as ((Ht'&_) & [s Hs] & Hr & _).
  rewrite <- Ht' in Ht.
  unfold read_data, read_stripped, call_path. rewrite Hs. unfold_M.
  destruct (translations cfg') as [t|]; [|done].
  destruct (str_in "comet-qe" (model cfg')) eqn:Hq.
  - intros H. repeat (case_match; simplify_eq/=); eauto.
  - destruct (references cfg') as [rf|].
    + intros H. repeat (case_match; simplify_eq/=); eauto.
    + specialize (Hr eq_refl). unfold any_refless in Hr. simpl in Hr.
      rewrite Hq in Hr. done.
Qed.

(** X15. Lines 144-148: the input files are opened after the model has been
    loaded, the sources first.  When the translations file cannot be opened,
    the run ends with the exception of [open], uncaught, and no file after it
    is opened. *)
Theorem unreadable_translations_after_model_load w args cfg tv cfg' tl mp s t S ex :
  parse_args w args = ret cfg ->
  validate w cfg = (tv, inr cfg') ->
  load_model w cfg' = (tl, inr mp) ->
  sources cfg' = Some s -> translations cfg' = Some t ->
  open_readlines w (path_call s) = inr S ->
  open_readlines w (path_call t) = inl ex ->
  score_command w args
  = ((EvSeed (seed_everything cfg)
        :: tv ++ tl ++ [EvOpenRead (path_call s); EvOpenRead (path_call t)])%list,
     inl (Uncaught ex)).
Proof.
  intros Hp Hv Hl Hs Ht HS HT. rewrite (score_command_parsed _ _ _ Hp).
  unfold score_cfg. unfold_M. rewrite Hv, Hl.
  assert (read_data w cfg'
          = ([EvOpenRead (path_call s); EvOpenRead (path_call t)], inl (Uncaught ex)))
    as ->; [|done].
  unfold read_data, read_stripped, call_path. rewrite Hs, Ht. unfold_M.
  by rewrite HS, HT.
Qed.

Lemma read_data_inv_files w cfg td data :
  read_data w cfg = (td, inr data) ->
  exists s t S T,
    sources cfg = Some s /\ translations cfg = Some t
    /\ open_readlines w (path_call s) = inr S
    /\ open_readlines w (path_call t) = inr T
    /\ (data = assemble [("src", strip <$> S); ("mt", strip <$> T)]
        \/ exists R, data = assemble [("src", strip <$> S); ("mt", strip <$> T);
                                      ("ref", strip <$> R)]).
Proof.
  unfold read_data, read_stripped, call_path. unfold_M. intros H.
  destruct (sources cfg) as [s|]; [|done].
  destruct (open_readlines w (path_call s)) as [?|S] eqn:HS; [done|]. simpl in H.
  destruct (translations cfg) as [t|]; [|done].
  destruct (open_readlines w (path_call t)) as [?|T] eqn:HT; [done|]. simpl in H.
  exists s, t, S, T. split_and!; try done.
  destruct (str_in "comet-qe" (model cfg)); simpl in H.
  - left. by simplify_eq.
  - destruct (references cfg) as [rf|]; [|done].
    destruct (open_readlines w (path_call rf)) as [?|R]; [done|]. simpl in H.
    right. exists R. by simplify_eq.
Qed.

(** X16. Lines 144-157: an empty sources or translations file is no error.  No
    record is assembled, [predict] is called on the empty list, and a run
    that reaches its end prints the system score alone and writes the empty
    list as JSON. *)
Theorem empty_input_file w args cfg tv cfg' s t S T tr :
  parse_args w args = ret cfg ->
  validate w cfg = (tv, inr cfg') ->
  sources cfg' = Some s -> translations cfg' = Some t ->
  open_readlines w (path_call s) = inr S ->
  open_readlines w (path_call t) = inr T ->
  S = [] \/ T = [] ->
  score_command w args = (tr, inr tt) ->
  exists c p,
    predict_calls tr = [c] /\ pc_samples c = [] /\ predict w c = inr p
    /\ stdout tr
       = system_line w (sys_score_of p)
         :: match to_json cfg with
            | TJStr path => [saved_line path]
            | TJBool _ => []
            end
    /\ forall path, to_json cfg = TJStr path -> json_written tr = [(path, [])].
Proof.
  intros Hp Hv Hs Ht HS HT Hempty H. rewrite (score_command_parsed _ _ _ Hp) in H.
  apply score_cfg_finished in H
    as (tv' & cfg'' & tl & mp & td & data & p & out & Hv' & _ & Hd & Hpr & _ & Hlen & _
        & Hout & Hjson & Hcalls & _).
  rewrite Hv in Hv'. simplify_eq.
  destruct (validate_ok _ _ _ _ Hv) as ((_&_&_&_&Hj&_) & _).
  assert (data = []) as ->.
  { apply read_data_inv_files in Hd
      as (s' & t' & S' & T' & Hs' & Ht' & HS' & HT' & Hdata).
    rewrite Hs in Hs'. rewrite Ht in Ht'. simplify_eq.
    rewrite HS in HS'. rewrite HT in HT'. simplify_eq.
    apply length_zero_iff_nil.
    destruct Hdata as [-> | [R ->]].
    - rewrite assemble_src_mt_length, !length_fmap. destruct Hempty as [-> | ->]; simpl; lia.
    - rewrite assemble_src_mt_ref_length, !length_fmap.
      destruct Hempty as [-> | ->]; simpl; lia. }
  apply length_zero_iff_nil in Hlen as ->.
  exists (the_call cfg'' mp []), p. rewrite Hj in Hout, Hjson.
  split_and!; try done.
  - rewrite Hout. by destruct p.
  - intros path Hpath. by rewrite Hpath in Hjson.
Qed.

(** X17. Lines 163-175: the loops stop with the scores.  In a run that reaches
    its end, a record for which the model returned no score is written to
    the JSON file as it was assembled, without a "COMET" field; the file
    still holds every record, and the segment lines are as many as there are
    scores (and records). *)
Theorem records_beyond_the_scores w args cfg tr :
  parse_args w args = ret cfg ->
  score_command w args = (tr, inr tt) ->
  exists c p out,
    predict_calls tr = [c] /\ predict w c = inr p
    /\ (forall path, to_json cfg = TJStr path -> json_written tr = [(path, out)])
    /\ length out = length (pc_samples c)
    /\ (forall i, score_count p <= i -> out !! i = pc_samples c !! i)
    /\ length (segment_lines w p (length (pc_samples c)))
       = score_count p `min` length (pc_samples c).
Proof.
  intros Hp H. rewrite (score_command_parsed _ _ _ Hp) in H.
  apply score_cfg_finished in H
    as (tv & cfg' & tl & mp & td & data & p & out & Hv & _ & _ & Hpr & _ & Hlen & Hrec
        & _ & Hjson & Hcalls & _).
  destruct (validate_ok _ _ _ _ Hv) as ((_&_&_&_&Hj&_) & _).
  exists (the_call cfg' mp data), p, out. simpl. split_and!; try done.
  - intros path Hpath. by rewrite Hj, Hpath in Hjson.
  - intros i Hi. rewrite Hrec. destruct (data !! i) as [sample|]; [|done]. simpl.
    f_equal. destruct p as [scores sys|means stds sys]; simpl in *.
    + by rewrite (lookup_ge_None_2 scores i) by lia.
    + rewrite (lookup_ge_None_2 (zip means stds) i); [done|].
      rewrite length_zip. lia.
  - destruct (segment_lines_spec w p (length data)) as [-> _]. by destruct p.
Qed.

(** *** What a record holds *)

Lemma rev_reverse {A} (l : list A) : rev l = reverse l.
Proof. apply rev_alt. Qed.

Lemma head_lstrip s c : head (lstrip s) = Some c -> is_whitespace c = false.
Proof.
  induction s as [|x s IH]; [done|]. simpl.
  destruct (is_whitespace x) eqn:Hx; [done|]. by intros [= <-].
Qed.

Lemma lstrip_suffix s : exists ws, s = (ws ++ lstrip s)%list.
Proof.
  induction s as [|x s [ws IH]]; [by exists []|]. simpl.
  destruct (is_whitespace x).
  - exists (x :: ws). simpl. by rewrite <- IH.
  - by exists [].
Qed.

Lemma rstrip_prefix s : exists ws, s = (rstrip s ++ ws)%list.
Proof.
  unfold rstrip. rewrite !rev_reverse.
  destruct (lstrip_suffix (reverse s)) as [ws Hws].
  exists (reverse ws).
  rewrite <- reverse_app, <- Hws. by rewrite reverse_involutive.
Qed.

Lemma strip_trimmed s : trimmed (strip s).
Proof.
  unfold strip. split.
  - intros c Hc. apply (head_lstrip s).
    destruct (rstrip_prefix (lstrip s)) as [ws Hws]. rewrite Hws.
    rewrite head_app. by rewrite Hc.
  - intros c. unfold rstrip. rewrite !rev_reverse, last_reverse. apply head_lstrip.
Qed.

(** X18. Lines 145-157: every field of an assembled record is a text without
    whitespace at either end: the records given to the model hold stripped
    lines only. *)
Theorem record_fields_are_stripped w cfg td data i (sample : record) key val :
  read_data w cfg = (td, inr data) ->
  data !! i = Some sample ->
  sample !! key = Some val ->
  exists s, val = VText s /\ trimmed s.
Proof.
  intros (s & t & S & T & _ & _ & _ & _ & Hdata)%read_data_inv_files Hi Hk.
  destruct Hdata as [-> | [R ->]].
  - rewrite assemble_src_mt_lookup, !list_lookup_fmap in Hi.
    destruct (S !! i) as [x|]; [|done]. destruct (T !! i) as [y|]; [|done].
    simpl in Hi. simplify_eq.
    rewrite lookup_insert in Hk. case_decide; simplify_eq;
      [eauto using strip_trimmed|].
    rewrite lookup_singleton in Hk. case_decide; simplify_eq.
    eauto using strip_trimmed.
  - rewrite assemble_src_mt_ref_lookup, !list_lookup_fmap in Hi.
    destruct (S !! i) as [x|]; [|done]. destruct (T !! i) as [y|]; [|done].
    destruct (R !! i) as [z|]; [|done].
    simpl in Hi. simplify_eq.
    rewrite lookup_insert in Hk. case_decide; simplify_eq;
      [eauto using strip_trimmed|].
    rewrite lookup_insert in Hk. case_decide; simplify_eq;
      [eauto using strip_trimmed|].
    rewrite lookup_singleton in Hk. case_decide; simplify_eq.
    eauto using strip_trimmed.
Qed.

(** *** The test for a reference-free model *)

Lemma prefix_spec (n h : string) :
  String.prefix n h = true <-> exists b, h = n ++ b.
Proof.
  split.
  - revert h. induction n as [|c n IH]; intros h; [by exists h|].
    destruct h as [|c' h]; [done|]. simpl.
    destruct (ascii_dec c c') as [<-|]; [|done].
    intros [b ->]%IH. by exists b.
  - intros [b ->]. apply prefix_app.
Qed.

Lemma str_in_cons (n : string) c h :
  str_in n (String c h) = String.prefix n (String c h) || str_in n h.
Proof. reflexivity. Qed.

Lemma str_in_spec (n h : string) :
  str_in n h = true <-> exists a b, h = a ++ n ++ b.
Proof.
  split.
  - induction h as [|c h IH].
    + change (str_in n "") with (String.prefix n "" || false).
      rewrite orb_false_r. intros [b ->]%prefix_spec. by exists "", b.
    + rewrite str_in_cons.
      intros [[b Hb]%prefix_spec | (a & b & ->)%IH]%orb_prop.
      * by exists "", b.
      * by exists (String c a), b.
  - intros (a & b & ->). induction a as [|c a IH].
    + change ("" ++ n ++ b) with (n ++ b).
      destruct (n ++ b) as [|c h] eqn:Hnb.
      * change (str_in n "") with (String.prefix n "" || false).
        by rewrite <- Hnb, prefix_app.
      * by rewrite str_in_cons, <- Hnb, prefix_app.
    + by rewrite append_cons, str_in_cons, IH, orb_true_r.
Qed.

(** X19. Lines 129 and 150: the two tests for a reference-free model agree, and
    they are a substring test: a model is reference-free exactly when
    "comet-qe" occurs somewhere in the value of [--model], be it a name or a
    path. *)
Theorem refless_test_is_substring (m : string) :
  any_refless m = str_in "comet-qe" m
  /\ (str_in "comet-qe" m = true <-> exists a b, m = a ++ "comet-qe" ++ b).
Proof.
  split; [|apply str_in_spec].
  unfold any_refless. simpl. apply orb_false_r.
Qed.

End MoreProperties.

(** ** The further properties at work in the small world *)

Lemma source_or_dataset_required_witness :
  score_command Demo.world [Demo.mt]
  = ([EvSeed 12],
     inl (UsageError "You must specify a source (-s) or a sacrebleu dataset (-d)")).
Proof.
  apply (source_or_dataset_required Demo.world [Demo.mt] (namespace_of 4 [Demo.mt])).
  - reflexivity.
  - reflexivity.
  - reflexivity.
Defined.

Lemma nothing_done_before_validation_passes_witness :
  existsb is_load_event (score_command Demo.world [Demo.src; Demo.mt]).1 = false
  /\ files_read (score_command Demo.world [Demo.src; Demo.mt]).1 = []
  /\ predict_calls (score_command Demo.world [Demo.src; Demo.mt]).1 = []
  /\ stdout (score_command Demo.world [Demo.src; Demo.mt]).1 = []
  /\ json_written (score_command Demo.world [Demo.src; Demo.mt]).1 = [].
Proof.
  apply (nothing_done_before_validation_passes Demo.world [Demo.src; Demo.mt]
           (namespace_of 4 [Demo.src; Demo.mt])
           (score_command Demo.world [Demo.src; Demo.mt]).1
           (UsageError "wmt20-comet-da requires -r/--references or -d/--sacrebleu_dataset.")).
  - reflexivity.
  - vm_compute. reflexivity.
  - intros ex. discriminate.
Defined.

Lemma sacrebleu_split_at_last_colon_witness :
  rsplit_colon ("wmt20:dev" ++ ":" ++ "en-de") = ["wmt20:dev"; "en-de"]
  /\ exists tr r,
      score_command Demo.world [ArgSacrebleuDataset "wmt20:dev:en-de"; Demo.mt]
      = (EvSeed (seed_everything
                   (namespace_of 4 [ArgSacrebleuDataset "wmt20:dev:en-de"; Demo.mt]))
           :: EvGetSourceFile "wmt20:dev" "en-de" :: tr, r).
Proof.
  apply (sacrebleu_split_at_last_colon Demo.world
           [ArgSacrebleuDataset "wmt20:dev:en-de"; Demo.mt]
           (namespace_of 4 [ArgSacrebleuDataset "wmt20:dev:en-de"; Demo.mt])
           "wmt20:dev" "en-de").
  - reflexivity.
  - reflexivity.
  - reflexivity.
  - reflexivity.
  - reflexivity.
Defined.

Lemma sacrebleu_resolution_sets_paths_witness :
  validate Demo.sacrebleu_world (namespace_of 4 [ArgSacrebleuDataset "wmt20:en-de"; Demo.mt])
  = ([EvGetSourceFile "wmt20" "en-de"; EvGetReferenceFiles "wmt20" "en-de"],
     inr (set_references (mkPath "ref.txt")
            (set_sources (mkPath "src.txt")
               (namespace_of 4 [ArgSacrebleuDataset "wmt20:en-de"; Demo.mt]))))
  /\ forall tr r,
       score_command Demo.sacrebleu_world [ArgSacrebleuDataset "wmt20:en-de"; Demo.mt]
       = (tr, r) ->
       r = inr tt \/ exists ex, r = inl (Uncaught ex).
Proof.
  apply (sacrebleu_resolution_sets_paths Demo.sacrebleu_world
           [ArgSacrebleuDataset "wmt20:en-de"; Demo.mt]
           (namespace_of 4 [ArgSacrebleuDataset "wmt20:en-de"; Demo.mt])
           "wmt20:en-de" "wmt20" "en-de" "src.txt" (mkPath "src.txt")
           "ref.txt" ["ref2.txt"] (mkPath "ref.txt")).
  - reflexivity.
  - reflexivity.
  - reflexivity.
  - reflexivity.
  - reflexivity.
  - reflexivity.
  - reflexivity.
  - reflexivity.
  - reflexivity.
Defined.

Lemma sacrebleu_exception_reported_witness :
  score_command Demo.no_testset_world [ArgSacrebleuDataset "wmt99:en-de"; Demo.mt]
  = ([EvSeed 12; EvGetSourceFile "wmt99" "en-de";
      EvStderr "SacreBLEU error: No such test set"],
     inl (SysExit 1)).
Proof.
  exact (sacrebleu_exception_reported Demo.no_testset_world
           [ArgSacrebleuDataset "wmt99:en-de"; Demo.mt]
           (namespace_of 4 [ArgSacrebleuDataset "wmt99:en-de"; Demo.mt])
           "wmt99:en-de" "wmt99" "en-de" Demo.unknown_testset
           eq_refl eq_refl eq_refl eq_refl eq_refl eq_refl).
Defined.

Lemma sacrebleu_without_reference_file_witness :
  score_command Demo.no_reference_world [ArgSacrebleuDataset "wmt20:en-de"; Demo.mt]
  = ([EvSeed 12; EvGetSourceFile "wmt20" "en-de"; EvGetReferenceFiles "wmt20" "en-de";
      EvStderr "SacreBLEU error: list index out of range"],
     inl (SysExit 1)).
Proof.
  apply (sacrebleu_without_reference_file Demo.no_reference_world
           [ArgSacrebleuDataset "wmt20:en-de"; Demo.mt]
           (namespace_of 4 [ArgSacrebleuDataset "wmt20:en-de"; Demo.mt])
           "wmt20:en-de" "wmt20" "en-de" "wmt20.en-de.src" (mkPath "wmt20.en-de.src")).
  - reflexivity.
  - reflexivity.
  - reflexivity.
  - reflexivity.
  - reflexivity.
  - reflexivity.
  - reflexivity.
  - reflexivity.
Defined.

Lemma refless_model_needs_no_references_witness :
  validate Demo.world (namespace_of 4 [Demo.src; Demo.mt; Demo.qe])
  = ([], inr (namespace_of 4 [Demo.src; Demo.mt; Demo.qe]))
  /\ forall tr r,
       score_command Demo.world [Demo.src; Demo.mt; Demo.qe] = (tr, r) ->
       r = inr tt \/ exists ex, r = inl (Uncaught ex).
Proof.
  apply (refless_model_needs_no_references Demo.world [Demo.src; Demo.mt; Demo.qe]
           (namespace_of 4 [Demo.src; Demo.mt; Demo.qe])).
  - reflexivity.
  - discriminate.
  - reflexivity.
  - reflexivity.
  - reflexivity.
Defined.

Lemma run_in_stage_order_witness :
  head (score_command Demo.world [Demo.src; Demo.mt; Demo.ref; Demo.json]).1
  = Some (EvSeed (seed_everything (namespace_of 4 [Demo.src; Demo.mt; Demo.ref; Demo.json])))
  /\ in_stage_order (score_command Demo.world [Demo.src; Demo.mt; Demo.ref; Demo.json]).1.
Proof.
  apply (run_in_stage_order Demo.world [Demo.src; Demo.mt; Demo.ref; Demo.json]
           (namespace_of 4 [Demo.src; Demo.mt; Demo.ref; Demo.json])
           (score_command Demo.world [Demo.src; Demo.mt; Demo.ref; Demo.json]).1
           (inr tt)).
  - reflexivity.
  - vm_compute. reflexivity.
Defined.

Lemma model_resolution_witness :
  EvSetEmbeddingCache ∈ (score_command Demo.world [Demo.src; Demo.mt; Demo.ref]).1
  /\ forall path,
       EvLoadCheckpoint path ∈ (score_command Demo.world [Demo.src; Demo.mt; Demo.ref]).1 ->
       download_model Demo.world "wmt20-comet-da" None = inr path.
Proof.
  split.
  - apply (proj2 (proj2 (proj2
             (model_resolution Demo.world [Demo.src; Demo.mt; Demo.ref]
                (namespace_of 4 [Demo.src; Demo.mt; Demo.ref])
                (score_command Demo.world [Demo.src; Demo.mt; Demo.ref]).1
                (inr tt) eq_refl ltac:(vm_compute; reflexivity))))).
    + vm_compute. discriminate.
    + reflexivity.
  - exact (proj1 (proj2
             (model_resolution Demo.world [Demo.src; Demo.mt; Demo.ref]
                (namespace_of 4 [Demo.src; Demo.mt; Demo.ref])
                (score_command Demo.world [Demo.src; Demo.mt; Demo.ref]).1
                (inr tt) eq_refl ltac:(vm_compute; reflexivity)))).
Defined.

Lemma predict_gets_the_options_witness :
  length (predict_calls
            (score_command Demo.world
               [Demo.src; Demo.mt; Demo.ref; ArgDisableLengthBatching;
                ArgMcDropout (MCInt 0)]).1) <= 1
  /\ forall c,
       c ∈ predict_calls
             (score_command Demo.world
                [Demo.src; Demo.mt; Demo.ref; ArgDisableLengthBatching;
                 ArgMcDropout (MCInt 0)]).1 ->
       pc_batch_size c = 8%Z /\ pc_gpus c = 1%Z /\ pc_num_workers c = 4%Z
       /\ pc_length_batching c = true
       /\ pc_mc_dropout c = None
       /\ exists tv cfg' td,
            validate Demo.world
              (namespace_of 4 [Demo.src; Demo.mt; Demo.ref; ArgDisableLengthBatching;
                               ArgMcDropout (MCInt 0)])
            = (tv, inr cfg')
            /\ read_data Demo.world cfg' = (td, inr (pc_samples c)).
Proof.
  apply (predict_gets_the_options Demo.world
           [Demo.src; Demo.mt; Demo.ref; ArgDisableLengthBatching; ArgMcDropout (MCInt 0)]
           (namespace_of 4 [Demo.src; Demo.mt; Demo.ref; ArgDisableLengthBatching;
                            ArgMcDropout (MCInt 0)])
           (score_command Demo.world
              [Demo.src; Demo.mt; Demo.ref; ArgDisableLengthBatching;
               ArgMcDropout (MCInt 0)]).1
           (inr tt)).
  - reflexivity.
  - vm_compute. reflexivity.
Defined.

Lemma prediction_of_wrong_shape_witness :
  exists msg,
    score_command Demo.triple_world [Demo.src; Demo.mt; Demo.ref]
    = ((EvSeed (seed_everything (namespace_of 4 [Demo.src; Demo.mt; Demo.ref]))
          :: [] ++ Demo.load_trace
          ++ [EvOpenRead "src.txt"; EvOpenRead "mt.txt"; EvOpenRead "ref.txt"]
          ++ [EvPredict (the_call (namespace_of 4 [Demo.src; Demo.mt; Demo.ref])
                           "/models/wmt20-comet-da.ckpt" Demo.records)])%list,
       inl (Uncaught (mkExn KValueError msg))).
Proof.
  apply (prediction_of_wrong_shape Demo.triple_world [Demo.src; Demo.mt; Demo.ref]
           (namespace_of 4 [Demo.src; Demo.mt; Demo.ref]) []
           (namespace_of 4 [Demo.src; Demo.mt; Demo.ref])
           Demo.load_trace "/models/wmt20-comet-da.ckpt"
           [EvOpenRead "src.txt"; EvOpenRead "mt.txt"; EvOpenRead "ref.txt"]
           Demo.records (Pred3 [] [] 0%Z)).
  - reflexivity.
  - reflexivity.
  - reflexivity.
  - vm_compute. reflexivity.
  - reflexivity.
  - reflexivity.
Defined.

Lemma prediction_failure_uncaught_witness :
  score_command Demo.failing_world [Demo.src; Demo.mt; Demo.ref]
  = ((EvSeed (seed_everything (namespace_of 4 [Demo.src; Demo.mt; Demo.ref]))
        :: [] ++ Demo.load_trace
        ++ [EvOpenRead "src.txt"; EvOpenRead "mt.txt"; EvOpenRead "ref.txt"]
        ++ [EvPredict (the_call (namespace_of 4 [Demo.src; Demo.mt; Demo.ref])
                         "/models/wmt20-comet-da.ckpt" Demo.records)])%list,
     inl (Uncaught Demo.out_of_memory))
  /\ stdout (score_command Demo.failing_world [Demo.src; Demo.mt; Demo.ref]).1 = []
  /\ json_written (score_command Demo.failing_world [Demo.src; Demo.mt; Demo.ref]).1 = [].
Proof.
  apply (prediction_failure_uncaught Demo.failing_world [Demo.src; Demo.mt; Demo.ref]
           (namespace_of 4 [Demo.src; Demo.mt; Demo.ref]) []
           (namespace_of 4 [Demo.src; Demo.mt; Demo.ref])
           Demo.load_trace "/models/wmt20-comet-da.ckpt"
           [EvOpenRead "src.txt"; EvOpenRead "mt.txt"; EvOpenRead "ref.txt"]
           Demo.records Demo.out_of_memory).
  - reflexivity.
  - reflexivity.
  - reflexivity.
  - vm_compute. reflexivity.
  - reflexivity.
Defined.

Lemma json_open_failure_witness :
  score_command Demo.read_only_world [Demo.src; Demo.mt; Demo.ref; Demo.json]
  = ((EvSeed (seed_everything (namespace_of 4 [Demo.src; Demo.mt; Demo.ref; Demo.json]))
        :: [] ++ Demo.load_trace
        ++ [EvOpenRead "src.txt"; EvOpenRead "mt.txt"; EvOpenRead "ref.txt"]
        ++ EvPredict (the_call (namespace_of 4 [Demo.src; Demo.mt; Demo.ref; Demo.json])
                        "/models/wmt20-comet-da.ckpt" Demo.records)
           :: (EvStdout <$> segment_lines Demo.read_only_world (Pred2 [1; 2] 3)%Z
                              (length Demo.records))
           ++ [EvStdout (system_line Demo.read_only_world
                           (sys_score_of (Pred2 [1; 2] 3)%Z))])%list,
     inl (Uncaught Demo.read_only)).
Proof.
  apply (json_open_failure Demo.read_only_world [Demo.src; Demo.mt; Demo.ref; Demo.json]
           (namespace_of 4 [Demo.src; Demo.mt; Demo.ref; Demo.json]) []
           (namespace_of 4 [Demo.src; Demo.mt; Demo.ref; Demo.json])
           Demo.load_trace "/models/wmt20-comet-da.ckpt"
           [EvOpenRead "src.txt"; EvOpenRead "mt.txt"; EvOpenRead "ref.txt"]
           Demo.records (Pred2 [1; 2] 3)%Z "out.json" Demo.read_only).
  - reflexivity.
  - reflexivity.
  - reflexivity.
  - vm_compute. reflexivity.
  - vm_compute. reflexivity.
  - reflexivity.
  - reflexivity.
  - reflexivity.
Defined.

Lemma reading_fails_only_on_open_witness :
  exists path ex,
    last (files_read [EvOpenRead (Score := Z) "src.txt"; EvOpenRead "missing.txt"])
    = Some path
    /\ open_readlines Demo.world path = inl ex
    /\ Uncaught (mkExn KException "No such file or directory: missing.txt") = Uncaught ex.
Proof.
  apply (reading_fails_only_on_open Demo.world
           (namespace_of 4 [Demo.src; ArgTranslations (mkPath "missing.txt"); Demo.ref]) []
           (namespace_of 4 [Demo.src; ArgTranslations (mkPath "missing.txt"); Demo.ref])).
  - reflexivity.
  - discriminate.
  - reflexivity.
Defined.

Lemma unreadable_translations_after_model_load_witness :
  score_command Demo.world [Demo.src; ArgTranslations (mkPath "missing.txt"); Demo.ref]
  = ((EvSeed (seed_everything
                (namespace_of 4 [Demo.src; ArgTranslations (mkPath "missing.txt");
                                 Demo.ref]))
        :: [] ++ Demo.load_trace
        ++ [EvOpenRead "src.txt"; EvOpenRead "missing.txt"])%list,
     inl (Uncaught (mkExn KException "No such file or directory: missing.txt"))).
Proof.
  apply (unreadable_translations_after_model_load Demo.world
           [Demo.src; ArgTranslations (mkPath "missing.txt"); Demo.ref]
           (namespace_of 4 [Demo.src; ArgTranslations (mkPath "missing.txt"); Demo.ref]) []
           (namespace_of 4 [Demo.src; ArgTranslations (mkPath "missing.txt"); Demo.ref])
           Demo.load_trace "/models/wmt20-comet-da.ckpt"
           (mkPath "src.txt") (mkPath "missing.txt") Demo.src_lines).
  - reflexivity.
  - reflexivity.
  - reflexivity.
  - reflexivity.
  - reflexivity.
  - reflexivity.
  - reflexivity.
Defined.

Lemma empty_input_file_witness :
  exists c p,
    predict_calls
      (score_command Demo.empty_world
         [ArgSources (mkPath "empty.txt"); Demo.mt; Demo.ref; Demo.json]).1 = [c]
    /\ pc_samples c = [] /\ predict Demo.empty_world c = inr p
    /\ stdout
         (score_command Demo.empty_world
            [ArgSources (mkPath "empty.txt"); Demo.mt; Demo.ref; Demo.json]).1
       = system_line Demo.empty_world (sys_score_of p)
         :: match to_json (namespace_of 4 [ArgSources (mkPath "empty.txt"); Demo.mt;
                                           Demo.ref; Demo.json]) with
            | TJStr path => [saved_line path]
            | TJBool _ => []
            end
    /\ forall path,
         to_json (namespace_of 4 [ArgSources (mkPath "empty.txt"); Demo.mt; Demo.ref;
                                  Demo.json]) = TJStr path ->
         json_written
           (score_command Demo.empty_world
              [ArgSources (mkPath "empty.txt"); Demo.mt; Demo.ref; Demo.json]).1
         = [(path, [])].
Proof.
  apply (empty_input_file Demo.empty_world
           [ArgSources (mkPath "empty.txt"); Demo.mt; Demo.ref; Demo.json]
           (namespace_of 4 [ArgSources (mkPath "empty.txt"); Demo.mt; Demo.ref; Demo.json])
           []
           (namespace_of 4 [ArgSources (mkPath "empty.txt"); Demo.mt; Demo.ref; Demo.json])
           (mkPath "empty.txt") (mkPath "mt.txt") [] Demo.mt_lines).
  - reflexivity.
  - reflexivity.
  - reflexivity.
  - reflexivity.
  - reflexivity.
  - reflexivity.
  - left. reflexivity.
  - vm_compute. reflexivity.
Defined.

Lemma records_beyond_the_scores_witness :
  exists c p out,
    predict_calls
      (score_command Demo.short_world [Demo.src; Demo.mt; Demo.ref; Demo.json]).1 = [c]
    /\ predict Demo.short_world c = inr p
    /\ (forall path,
          to_json (namespace_of 4 [Demo.src; Demo.mt; Demo.ref; Demo.json]) = TJStr path ->
          json_written
            (score_command Demo.short_world [Demo.src; Demo.mt; Demo.ref; Demo.json]).1
          = [(path, out)])
    /\ length out = length (pc_samples c)
    /\ (forall i, score_count p <= i -> out !! i = pc_samples c !! i)
    /\ length (segment_lines Demo.short_world p (length (pc_samples c)))
       = score_count p `min` length (pc_samples c).
Proof.
  apply (records_beyond_the_scores Demo.short_world
           [Demo.src; Demo.mt; Demo.ref; Demo.json]
           (namespace_of 4 [Demo.src; Demo.mt; Demo.ref; Demo.json])).
  - reflexivity.
  - vm_compute. reflexivity.
Defined.

Lemma record_fields_are_stripped_witness :
  exists s,
    VText (Score := Z) (text_of_string "Hallo Welt.") = VText s /\ trimmed s.
Proof.
  apply (record_fields_are_stripped Demo.world
           (namespace_of 4 [Demo.src; Demo.mt; Demo.ref])
           [EvOpenRead "src.txt"; EvOpenRead "mt.txt"; EvOpenRead "ref.txt"]
           Demo.records 0
           {[ "src" := VText (text_of_string "Hallo Welt.");
              "mt" := VText (text_of_string "Hello world.");
              "ref" := VText (text_of_string "Hello, world.") ]}
           "src").
  - reflexivity.
  - vm_compute. reflexivity.
  - vm_compute. reflexivity.
Defined.
